(** * Job-lifecycle synchronisation layer and telemetry channel

    A shallow embedding of the two stateful pieces of the dashboard
    front end:

    - [Job]: the [useDiagnosticJob] hook (submit, chained polling, reset,
      unmount cleanup);
    - [Telemetry]: the [TelemetryWebSocket] service (connect, disconnect,
      subscribe, message fan-out, reconnect timer);
    - [UseWebSocket]: the [useWebSocket] hook on top of the service.

    JavaScript runs these on one event loop.  Every model below is
    therefore a deterministic transition function over a world that holds
    the program's own cells together with the part of the runtime the
    program talks to (armed timers, pending promises, sockets), and an
    event type listing what the loop may run next: a call made by a
    consumer, a promise settling, a timer callback, a socket event. *)

From Stdlib Require Import String Ascii List Bool Arith PArith ZArith Lia.
Import ListNotations.

Open Scope string_scope.
Open Scope list_scope.

(** Sequencing of state updates, read left to right like the statements
    of a function body. *)
Notation "w |> f" := (f w) (at level 45, left associativity, only parsing).

(** Closed goals about sample runs are settled by evaluation. *)
Ltac evaluate :=
  repeat (split; [vm_compute; reflexivity|]); vm_compute; reflexivity.

(** [x || d] on strings: the empty string is the only falsy string. *)
Definition or_default (s d : string) : string :=
  match s with
  | EmptyString => d
  | _ => s
  end.

(** Handles returned by [setTimeout] are integers greater than zero, so a
    stored handle is always truthy; [positive] keeps that in the type. *)
Definition TimerId := positive.

(* ===================================================================== *)
(** * The [useDiagnosticJob] hook *)
(* ===================================================================== *)

Module Job.

Inductive JobStatus := pending | processing | completed | failed.

(** The analysis payload.  The hook only passes it along; the numeric
    profile it carries is never inspected here. *)
Record DiagnosticResult := {
  result_job_id : string;
  result_timestamp : string
}.

Record JobResponse := {
  job_id : string;
  status : JobStatus;
  submitted_at : option string;
  result : option DiagnosticResult
}.

Definition File := string.
Definition RequestId := positive.

(** The two calls of [services/api] the hook makes. *)
Inductive Request :=
| PostDiagnostics (file : File)      (* submitJob(file) *)
| GetDiagnostics (jobId : string).   (* getJobStatus(jobId) *)

(** An armed timer: [setTimeout(() => pollStatus(jobId), delay)]. *)
Record Timer := {
  handle : TimerId;
  armed_at : nat;
  delay : nat;
  poll_job : string
}.

(** What went over the wire, oldest first. *)
Inductive Traffic :=
| Sent (q : Request)
| Received (q : Request) (resp : JobResponse)
| Failed (q : Request) (message : string).

Record World := {
  (* useState cells *)
  job : option JobResponse;
  error : option string;
  isLoading : bool;
  (* useRef cell *)
  pollTimeout : option TimerId;
  (* runtime *)
  now : nat;
  timers : list Timer;
  next_timer : TimerId;
  inflight : list (RequestId * Request);
  next_request : RequestId;
  traffic : list Traffic
}.

Definition init : World := {|
  job := None; error := None; isLoading := false;
  pollTimeout := None;
  now := 0; timers := []; next_timer := 1%positive;
  inflight := []; next_request := 1%positive;
  traffic := []
|}.

(** ** Cell updates *)

Definition setJob (v : option JobResponse) (w : World) : World :=
  {| job := v; error := error w; isLoading := isLoading w;
     pollTimeout := pollTimeout w; now := now w; timers := timers w;
     next_timer := next_timer w; inflight := inflight w;
     next_request := next_request w; traffic := traffic w |}.

Definition setError (v : option string) (w : World) : World :=
  {| job := job w; error := v; isLoading := isLoading w;
     pollTimeout := pollTimeout w; now := now w; timers := timers w;
     next_timer := next_timer w; inflight := inflight w;
     next_request := next_request w; traffic := traffic w |}.

Definition setIsLoading (v : bool) (w : World) : World :=
  {| job := job w; error := error w; isLoading := v;
     pollTimeout := pollTimeout w; now := now w; timers := timers w;
     next_timer := next_timer w; inflight := inflight w;
     next_request := next_request w; traffic := traffic w |}.

Definition setPollTimeout (v : option TimerId) (w : World) : World :=
  {| job := job w; error := error w; isLoading := isLoading w;
     pollTimeout := v; now := now w; timers := timers w;
     next_timer := next_timer w; inflight := inflight w;
     next_request := next_request w; traffic := traffic w |}.

(** ** Runtime services *)

Definition disarm (h : TimerId) (ts : list Timer) : list Timer :=
  filter (fun t => negb (Pos.eqb (handle t) h)) ts.

Definition clearTimeout (h : TimerId) (w : World) : World :=
  {| job := job w; error := error w; isLoading := isLoading w;
     pollTimeout := pollTimeout w; now := now w;
     timers := disarm h (timers w);
     next_timer := next_timer w; inflight := inflight w;
     next_request := next_request w; traffic := traffic w |}.

(** A timer that fires leaves the runtime's table the same way. *)
Definition expire (h : TimerId) (w : World) : World := clearTimeout h w.

(** [setTimeout(() => pollStatus(jobId), ms)]: arms a timer under a fresh
    handle and returns the handle. *)
Definition setTimeout (jobId : string) (ms : nat) (w : World)
  : TimerId * World :=
  let h := next_timer w in
  (h,
   {| job := job w; error := error w; isLoading := isLoading w;
      pollTimeout := pollTimeout w; now := now w;
      timers := timers w ++
        [{| handle := h; armed_at := now w; delay := ms;
            poll_job := jobId |}];
      next_timer := Pos.succ h; inflight := inflight w;
      next_request := next_request w; traffic := traffic w |}).

(** Starting an HTTP call: the promise is pending until the loop delivers
    its outcome. *)
Definition send (q : Request) (w : World) : World :=
  {| job := job w; error := error w; isLoading := isLoading w;
     pollTimeout := pollTimeout w; now := now w; timers := timers w;
     next_timer := next_timer w;
     inflight := inflight w ++ [(next_request w, q)];
     next_request := Pos.succ (next_request w);
     traffic := traffic w ++ [Sent q] |}.

Definition pending_request (r : RequestId) (w : World) : option Request :=
  option_map snd (find (fun p => Pos.eqb (fst p) r) (inflight w)).

Definition settle (r : RequestId) (entry : Traffic) (w : World) : World :=
  {| job := job w; error := error w; isLoading := isLoading w;
     pollTimeout := pollTimeout w; now := now w; timers := timers w;
     next_timer := next_timer w;
     inflight := filter (fun p => negb (Pos.eqb (fst p) r)) (inflight w);
     next_request := next_request w;
     traffic := traffic w ++ [entry] |}.

Definition elapse (ms : nat) (w : World) : World :=
  {| job := job w; error := error w; isLoading := isLoading w;
     pollTimeout := pollTimeout w; now := now w + ms; timers := timers w;
     next_timer := next_timer w; inflight := inflight w;
     next_request := next_request w; traffic := traffic w |}.

(** ** The hook's functions *)

Definition stopPolling (w : World) : World :=
  match pollTimeout w with
  | Some h => w |> clearTimeout h |> setPollTimeout None
  | None => w
  end.

Definition is_terminal (s : JobStatus) : bool :=
  match s with
  | completed | failed => true
  | pending | processing => false
  end.

(** [pollStatus(jobId)] up to its [await]. *)
Definition pollStatus (jobId : string) (w : World) : World :=
  w |> send (GetDiagnostics jobId).

(** [pollStatus(jobId)] after [getJobStatus] resolved with [jobStatus]. *)
Definition pollStatus_resolved (jobId : string) (jobStatus : JobResponse)
    (w : World) : World :=
  let w := w |> setJob (Some jobStatus) in
  if is_terminal (status jobStatus) then
    w |> stopPolling |> setIsLoading false
  else
    let (h, w) := setTimeout jobId 1000 w in
    w |> setPollTimeout (Some h).

(** [pollStatus(jobId)] after [getJobStatus] rejected: the [catch]. *)
Definition pollStatus_rejected (message : string) (w : World) : World :=
  w |> setError (Some (or_default message "Failed to poll job status"))
    |> stopPolling
    |> setIsLoading false.

(** [submit(file)] up to its [await]. *)
Definition submit (file : File) (w : World) : World :=
  w |> setIsLoading true
    |> setError None
    |> setJob None
    |> send (PostDiagnostics file).

(** [submit(file)] after [submitJob] resolved with [response]. *)
Definition submit_resolved (response : JobResponse) (w : World) : World :=
  w |> setJob (Some response)
    |> pollStatus (job_id response).

(** [submit(file)] after [submitJob] rejected: the [catch]. *)
Definition submit_rejected (message : string) (w : World) : World :=
  w |> setError (Some (or_default message "Failed to submit job"))
    |> setIsLoading false.

Definition reset (w : World) : World :=
  w |> stopPolling
    |> setJob None
    |> setError None
    |> setIsLoading false.

(** The cleanup returned by the hook's effect.  React drops updates to
    the state cells of an unmounted component; the model keeps the
    cells, which only makes more behaviour visible. *)
Definition unmount (w : World) : World :=
  w |> stopPolling.

(** [result: job?.result || null]. *)
Definition exposed_result (w : World) : option DiagnosticResult :=
  match job w with
  | Some j => result j
  | None => None
  end.

(** ** The event loop *)

Inductive Event :=
| Submit (file : File)
| Reset
| Unmount
| Resolve (r : RequestId) (resp : JobResponse)
| Reject (r : RequestId) (message : string)
| Fire (h : TimerId)
| Elapse (ms : nat).

Definition armed (h : TimerId) (w : World) : option Timer :=
  find (fun t => Pos.eqb (handle t) h) (timers w).

(** [None]: the event cannot happen in [w] (no such pending promise, no
    such armed timer, timer not yet due). *)
Definition step (w : World) (e : Event) : option World :=
  match e with
  | Submit file => Some (submit file w)
  | Reset => Some (reset w)
  | Unmount => Some (unmount w)
  | Resolve r resp =>
      match pending_request r w with
      | Some (PostDiagnostics f) =>
          Some (w |> settle r (Received (PostDiagnostics f) resp)
                  |> submit_resolved resp)
      | Some (GetDiagnostics jobId) =>
          Some (w |> settle r (Received (GetDiagnostics jobId) resp)
                  |> pollStatus_resolved jobId resp)
      | None => None
      end
  | Reject r message =>
      match pending_request r w with
      | Some (PostDiagnostics f) =>
          Some (w |> settle r (Failed (PostDiagnostics f) message)
                  |> submit_rejected message)
      | Some (GetDiagnostics jobId) =>
          Some (w |> settle r (Failed (GetDiagnostics jobId) message)
                  |> pollStatus_rejected message)
      | None => None
      end
  | Fire h =>
      match armed h w with
      | Some t =>
          if Nat.leb (armed_at t + delay t) (now w) then
            Some (w |> expire h |> pollStatus (poll_job t))
          else None
      | None => None
      end
  | Elapse ms => Some (elapse ms w)
  end.

Fixpoint run (w : World) (tr : list Event) : option World :=
  match tr with
  | [] => Some w
  | e :: tr' =>
      match step w e with
      | Some w' => run w' tr'
      | None => None
      end
  end.

(** ** Observations used by the statements below *)

Definition polls (J : string) (q : Request) : bool :=
  match q with
  | GetDiagnostics j => String.eqb j J
  | PostDiagnostics _ => false
  end.

(** Status requests for job [J] whose promise is still pending. *)
Definition polls_in_flight (J : string) (w : World) : nat :=
  length (filter (fun p => polls J (snd p)) (inflight w)).

(** Armed timers whose callback will poll job [J]. *)
Definition timers_for (J : string) (w : World) : nat :=
  length (filter (fun t => String.eqb (poll_job t) J) (timers w)).

(** A pending status request and an armed timer are the two ways a
    polling chain can be alive. *)
Definition tokens (J : string) (w : World) : nat :=
  polls_in_flight J w + timers_for J w.

Definition creates (J : string) (e : Traffic) : bool :=
  match e with
  | Received (PostDiagnostics _) resp => String.eqb (job_id resp) J
  | _ => false
  end.

(** How many accepted submissions the server answered with job id [J]. *)
Definition submissions (J : string) (w : World) : nat :=
  length (filter (creates J) (traffic w)).

Definition asks (J : string) (e : Traffic) : bool :=
  match e with
  | Sent q => polls J q
  | _ => false
  end.

(** How many status requests for job [J] were issued so far. *)
Definition status_requests (J : string) (w : World) : nat :=
  length (filter (asks J) (traffic w)).

Definition is_submit (e : Event) : bool :=
  match e with
  | Submit _ => true
  | _ => false
  end.

(** Nothing of a polling session is left: no pending promise, no armed
    timer. *)
Definition quiet (w : World) : Prop :=
  timers w = [] /\ inflight w = [].

(** The only armed timers are the one the ref cell remembers. *)
Definition tracked (w : World) : Prop :=
  forall t, In t (timers w) -> pollTimeout w = Some (handle t).

(** ** Scenarios *)

Definition response (id : string) (s : JobStatus)
    (r : option DiagnosticResult) : JobResponse :=
  {| job_id := id; status := s; submitted_at := None; result := r |}.

Definition sample_result : DiagnosticResult :=
  {| result_job_id := "abc"; result_timestamp := "2024-01-01T00:00:00" |}.

(** submit; accepted; first status answer (not terminal); the timer
    fires once due; second status answer. *)
Definition happy_path (file : File) (r0 r1 r2 : JobResponse)
    (d1 d2 d3 : nat) : list Event :=
  [ Submit file; Resolve 1%positive r0;
    Elapse d1; Resolve 2%positive r1;
    Elapse (1000 + d2); Fire 1%positive;
    Elapse d3; Resolve 3%positive r2 ].

(** reset() while the first status request is still pending, then the
    answer arrives. *)
Definition reset_during_request : list Event :=
  [ Submit "fw.bin"; Resolve 1%positive (response "abc" pending None);
    Reset;
    Resolve 2%positive (response "abc" processing None);
    Elapse 1000; Fire 1%positive ].

(** A second submit() while the first job waits for its next poll. *)
Definition resubmit_while_polling : list Event :=
  [ Submit "one.bin"; Resolve 1%positive (response "abc" pending None);
    Resolve 2%positive (response "abc" processing None);
    Submit "two.bin";
    Elapse 1000; Fire 1%positive ].

(** The world a trace leads to from the initial one. *)
Definition after (tr : list Event) : World :=
  match run init tr with
  | Some w => w
  | None => init
  end.

(** Events that are neither a poll nor a submission. *)
Definition bystander (e : Event) : bool :=
  match e with
  | Reset | Unmount | Elapse _ => true
  | Submit _ | Resolve _ _ | Reject _ _ | Fire _ => false
  end.

Definition cleared (w : World) : Prop :=
  job w = None /\ error w = None /\ isLoading w = false.

Definition same_cells (w1 w2 : World) : Prop :=
  job w2 = job w1 /\ error w2 = error w1 /\ isLoading w2 = isLoading w1.

(** One poll answered, the next one scheduled. *)
Definition waiting_for_next_poll : list Event :=
  [ Submit "fw.bin"; Resolve 1%positive (response "abc" pending None);
    Resolve 2%positive (response "abc" processing None) ].

Definition is_unmount (e : Event) : bool :=
  match e with
  | Unmount => true
  | _ => false
  end.

(** Job id [J] was handed out by the server in answer to a submission. *)
Definition known (J : string) (w : World) : Prop :=
  exists f resp,
    In (Received (PostDiagnostics f) resp) (traffic w) /\ job_id resp = J.

(** Somewhere in the hook or the runtime a poll of job [J] is recorded:
    sent, pending or scheduled. *)
Definition polled (J : string) (w : World) : Prop :=
  In (Sent (GetDiagnostics J)) (traffic w) \/
  (exists r, In (r, GetDiagnostics J) (inflight w)) \/
  (exists t, In t (timers w) /\ poll_job t = J).

(** The first status request of a job is out and nothing else. *)
Definition first_poll_pending : list Event :=
  [ Submit "fw.bin"; Resolve 1%positive (response "abc" pending None) ].

(** Two submissions that the server answers with the same job id. *)
Definition same_id_twice : list Event :=
  [ Submit "fw.bin"; Resolve 1%positive (response "abc" pending None);
    Submit "fw.bin"; Resolve 3%positive (response "abc" pending None) ].

End Job.

(* ===================================================================== *)
(** * The [TelemetryWebSocket] service *)
(* ===================================================================== *)

Module Telemetry.

(** Values [JSON.parse] can return.  Numbers are kept as the decimal
    literal read; nothing here computes with them. *)
#[local] Unset Elimination Schemes.
Inductive JSON :=
| JNull
| JBool (b : bool)
| JNumber (mantissa exponent : Z)
| JString (s : string)
| JArray (items : list JSON)
| JObject (members : list (string * JSON)).
#[local] Set Elimination Schemes.

Inductive ReadyState := CONNECTING | OPEN | CLOSING | CLOSED.

Definition SocketId := positive.

(** A listener is a function object; the [Set] compares them by
    identity. *)
Definition Listener := nat.

(** What running a listener does to the service: it may call the
    unsubscribe closures it can reach, and it may throw. *)
Record Reaction := {
  unsubscribes : list Listener;
  throws : bool
}.

Inductive Console :=
| log (text : string)
| err (text : string).

Record Timer := {
  handle : TimerId;
  armed_at : nat;
  delay : nat
}.

Record World := {
  (* fields of the class; [url] is fixed at construction and only
     passed to [new WebSocket] *)
  ws : option SocketId;
  listeners : list (option Listener);
  reconnectTimeout : option TimerId;
  isExplicitlyClosed : bool;
  (* runtime *)
  now : nat;
  sockets : list (SocketId * ReadyState);
  next_socket : SocketId;
  timers : list Timer;
  next_timer : TimerId;
  console : list Console;
  delivered : list (Listener * JSON)
}.

(** [listeners] is the [[SetData]] list of the [Set]: values in
    insertion order, where [delete] leaves a hole ([None]) in place so
    that a running [forEach] keeps its position. *)

Definition init : World := {|
  ws := None; listeners := []; reconnectTimeout := None;
  isExplicitlyClosed := false;
  now := 0; sockets := []; next_socket := 1%positive;
  timers := []; next_timer := 1%positive;
  console := []; delivered := []
|}.

(** ** Field updates *)

Definition set_ws (v : option SocketId) (w : World) : World :=
  {| ws := v; listeners := listeners w;
     reconnectTimeout := reconnectTimeout w;
     isExplicitlyClosed := isExplicitlyClosed w; now := now w;
     sockets := sockets w; next_socket := next_socket w;
     timers := timers w; next_timer := next_timer w;
     console := console w; delivered := delivered w |}.

Definition set_listeners (v : list (option Listener)) (w : World) : World :=
  {| ws := ws w; listeners := v;
     reconnectTimeout := reconnectTimeout w;
     isExplicitlyClosed := isExplicitlyClosed w; now := now w;
     sockets := sockets w; next_socket := next_socket w;
     timers := timers w; next_timer := next_timer w;
     console := console w; delivered := delivered w |}.

Definition set_reconnectTimeout (v : option TimerId) (w : World) : World :=
  {| ws := ws w; listeners := listeners w;
     reconnectTimeout := v;
     isExplicitlyClosed := isExplicitlyClosed w; now := now w;
     sockets := sockets w; next_socket := next_socket w;
     timers := timers w; next_timer := next_timer w;
     console := console w; delivered := delivered w |}.

Definition set_isExplicitlyClosed (v : bool) (w : World) : World :=
  {| ws := ws w; listeners := listeners w;
     reconnectTimeout := reconnectTimeout w;
     isExplicitlyClosed := v; now := now w;
     sockets := sockets w; next_socket := next_socket w;
     timers := timers w; next_timer := next_timer w;
     console := console w; delivered := delivered w |}.

Definition set_sockets (v : list (SocketId * ReadyState)) (w : World)
  : World :=
  {| ws := ws w; listeners := listeners w;
     reconnectTimeout := reconnectTimeout w;
     isExplicitlyClosed := isExplicitlyClosed w; now := now w;
     sockets := v; next_socket := next_socket w;
     timers := timers w; next_timer := next_timer w;
     console := console w; delivered := delivered w |}.

Definition set_timers (v : list Timer) (w : World) : World :=
  {| ws := ws w; listeners := listeners w;
     reconnectTimeout := reconnectTimeout w;
     isExplicitlyClosed := isExplicitlyClosed w; now := now w;
     sockets := sockets w; next_socket := next_socket w;
     timers := v; next_timer := next_timer w;
     console := console w; delivered := delivered w |}.

Definition print (c : Console) (w : World) : World :=
  {| ws := ws w; listeners := listeners w;
     reconnectTimeout := reconnectTimeout w;
     isExplicitlyClosed := isExplicitlyClosed w; now := now w;
     sockets := sockets w; next_socket := next_socket w;
     timers := timers w; next_timer := next_timer w;
     console := console w ++ [c]; delivered := delivered w |}.

Definition record_call (l : Listener) (data : JSON) (w : World) : World :=
  {| ws := ws w; listeners := listeners w;
     reconnectTimeout := reconnectTimeout w;
     isExplicitlyClosed := isExplicitlyClosed w; now := now w;
     sockets := sockets w; next_socket := next_socket w;
     timers := timers w; next_timer := next_timer w;
     console := console w; delivered := delivered w ++ [(l, data)] |}.

Definition elapse (ms : nat) (w : World) : World :=
  {| ws := ws w; listeners := listeners w;
     reconnectTimeout := reconnectTimeout w;
     isExplicitlyClosed := isExplicitlyClosed w; now := now w + ms;
     sockets := sockets w; next_socket := next_socket w;
     timers := timers w; next_timer := next_timer w;
     console := console w; delivered := delivered w |}.

(** ** Runtime services: timers *)

Definition disarm (h : TimerId) (ts : list Timer) : list Timer :=
  filter (fun t => negb (Pos.eqb (handle t) h)) ts.

Definition clearTimeout (h : TimerId) (w : World) : World :=
  w |> set_timers (disarm h (timers w)).

Definition expire (h : TimerId) (w : World) : World := clearTimeout h w.

(** [setTimeout(callback, ms)]; the service only ever passes the
    reconnect callback. *)
Definition setTimeout (ms : nat) (w : World) : TimerId * World :=
  let h := next_timer w in
  (h,
   {| ws := ws w; listeners := listeners w;
      reconnectTimeout := reconnectTimeout w;
      isExplicitlyClosed := isExplicitlyClosed w; now := now w;
      sockets := sockets w; next_socket := next_socket w;
      timers := timers w ++
        [{| handle := h; armed_at := now w; delay := ms |}];
      next_timer := Pos.succ h;
      console := console w; delivered := delivered w |}).

Definition armed (h : TimerId) (w : World) : option Timer :=
  find (fun t => Pos.eqb (handle t) h) (timers w).

(** ** Runtime services: sockets *)

Definition readyState (s : SocketId) (w : World) : option ReadyState :=
  option_map snd (find (fun p => Pos.eqb (fst p) s) (sockets w)).

Definition set_readyState (s : SocketId) (st : ReadyState) (w : World)
  : World :=
  w |> set_sockets
         (map (fun p => if Pos.eqb (fst p) s then (s, st) else p)
              (sockets w)).

(** [new WebSocket(url)]. *)
Definition new_WebSocket (w : World) : SocketId * World :=
  let s := next_socket w in
  (s,
   {| ws := ws w; listeners := listeners w;
      reconnectTimeout := reconnectTimeout w;
      isExplicitlyClosed := isExplicitlyClosed w; now := now w;
      sockets := sockets w ++ [(s, CONNECTING)];
      next_socket := Pos.succ s;
      timers := timers w; next_timer := next_timer w;
      console := console w; delivered := delivered w |}).

(** [socket.close()]: starts the closing handshake unless the socket is
    already closing or closed; the close event comes later. *)
Definition close (s : SocketId) (w : World) : World :=
  match readyState s w with
  | Some CONNECTING | Some OPEN => w |> set_readyState s CLOSING
  | _ => w
  end.

(** ** The [Set] of listeners *)

Definition holds (l : Listener) (e : option Listener) : bool :=
  match e with
  | Some x => Nat.eqb x l
  | None => false
  end.

Definition set_has (l : Listener) (es : list (option Listener)) : bool :=
  existsb (holds l) es.

Definition set_add (l : Listener) (es : list (option Listener))
  : list (option Listener) :=
  if set_has l es then es else es ++ [Some l].

Fixpoint set_delete (l : Listener) (es : list (option Listener))
  : list (option Listener) :=
  match es with
  | [] => []
  | e :: es' =>
      if holds l e then None :: es' else e :: set_delete l es'
  end.

Definition subscribed (l : Listener) (w : World) : Prop :=
  In (Some l) (listeners w).

(** Everything of the world except the listeners, the console and the
    delivery record. *)
Definition wiring (w : World) :=
  (ws w, reconnectTimeout w, isExplicitlyClosed w, now w,
   sockets w, next_socket w, timers w, next_timer w).

(** [es'] is [es] with some entries turned into holes. *)
Definition shrinks (es es' : list (option Listener)) : Prop :=
  length es' = length es /\
  forall j x, nth_error es' j = Some (Some x) -> nth_error es j = Some (Some x).

(** No listener sits at two positions of the entry list. *)
Definition well_formed (es : list (option Listener)) : Prop :=
  forall i j x,
    nth_error es i = Some (Some x) -> nth_error es j = Some (Some x) -> i = j.

(** Every armed timer is the one the service remembers. *)
Definition tracked (w : World) : Prop :=
  forall t, In t (timers w) -> reconnectTimeout w = Some (handle t).

(** The remembered handle and the armed timers agree exactly. *)
Definition in_sync (w : World) : Prop :=
  match reconnectTimeout w with
  | Some h => exists t, timers w = [t] /\ handle t = h /\ delay t = 3000
  | None => timers w = []
  end.

(** As long as [disconnect] is not called, the flag stays down and the
    remembered handle is armed exactly when it is set. *)
Definition live (w : World) : Prop :=
  isExplicitlyClosed w = false /\ in_sync w.

(** Explicitly closed: flag set, no socket held, nothing armed. *)
Definition off (w : World) : Prop :=
  isExplicitlyClosed w = true /\ timers w = [] /\ ws w = None.

(** A socket that is connecting or open. *)
Definition is_live (st : ReadyState) : bool :=
  match st with
  | CONNECTING | OPEN => true
  | CLOSING | CLOSED => false
  end.

(** Socket ids are distinct and below the next one to be handed out, and
    a live socket is the one the service holds. *)
Definition sound_sockets (w : World) : Prop :=
  NoDup (map fst (sockets w)) /\
  (forall p, In p (sockets w) -> Pos.lt (fst p) (next_socket w)) /\
  (forall s st, In (s, st) (sockets w) -> is_live st = true -> ws w = Some s).

(** At most one reconnect timer, with the fixed delay. *)
Definition sound_timers (w : World) : Prop :=
  length (timers w) <= 1 /\
  forall t, In t (timers w) ->
    delay t = 3000 /\ reconnectTimeout w = Some (handle t).

(** The calls made to listener [l] so far, oldest first. *)
Definition calls_to (l : Listener) (w : World) : list (Listener * JSON) :=
  filter (fun d : Listener * JSON => Nat.eqb (fst d) l) (delivered w).

(** What the event loop may run next. *)
Inductive Event :=
| Connect
| Disconnect
| Subscribe (l : Listener)
| Unsubscribe (l : Listener)
| SockOpen (s : SocketId)
| SockMessage (s : SocketId) (raw : string)
| SockError (s : SocketId)
| SockClose (s : SocketId)
| Fire (h : TimerId)
| Elapse (ms : nat).

Definition is_connect (e : Event) : bool :=
  match e with Connect => true | _ => false end.

Definition is_disconnect (e : Event) : bool :=
  match e with Disconnect => true | _ => false end.

Definition is_fire (e : Event) : bool :=
  match e with Fire _ => true | _ => false end.

Definition is_subscribe (l : Listener) (e : Event) : bool :=
  match e with
  | Subscribe x => Nat.eqb x l
  | _ => false
  end.

(** ** Methods of the class *)

Section Service.

(** The two things the service calls and does not define. *)
Variable JSON_parse : string -> option JSON.      (* [None]: throws *)
Variable call : Listener -> JSON -> Reaction.

Definition subscribe (l : Listener) (w : World) : World :=
  w |> set_listeners (set_add l (listeners w)).

(** The closure [subscribe] returns. *)
Definition unsubscribe (l : Listener) (w : World) : World :=
  w |> set_listeners (set_delete l (listeners w)).

(** One callback invocation inside [forEach]: the listener runs, which
    may unsubscribe listeners; the flag tells whether it threw. *)
Definition invoke (l : Listener) (data : JSON) (w : World)
  : World * bool :=
  (fold_left (fun w x => unsubscribe x w)
             (unsubscribes (call l data))
             (w |> record_call l data),
   throws (call l data)).

(** [Set.prototype.forEach]: walk the entry list by position, skip
    holes, stop when a callback throws.  Callbacks cannot add entries
    here, so the number of positions left to visit is fixed when the
    loop starts. *)
Fixpoint forEach (left : nat) (index : nat) (data : JSON) (w : World)
  : World * bool :=
  match left with
  | 0 => (w, false)
  | S left' =>
      match nth_error (listeners w) index with
      | Some (Some l) =>
          let (w', threw) := invoke l data w in
          if threw then (w', true)
          else forEach left' (S index) data w'
      | _ => forEach left' (S index) data w
      end
  end.

Definition notifyListeners (data : JSON) (w : World) : World * bool :=
  forEach (length (listeners w)) 0 data w.

Definition connect (w : World) : World :=
  let busy :=
    match ws w with
    | Some s =>
        match readyState s w with
        | Some OPEN | Some CONNECTING => true
        | _ => false
        end
    | None => false
    end in
  if busy then w
  else
    let w := w |> set_isExplicitlyClosed false in
    let (s, w) := new_WebSocket w in
    w |> set_ws (Some s).

Definition scheduleReconnect (w : World) : World :=
  match reconnectTimeout w with
  | Some _ => w
  | None =>
      let (h, w) := setTimeout 3000 w in
      w |> set_reconnectTimeout (Some h)
  end.

(** The callback given to [setTimeout] in [scheduleReconnect]. *)
Definition reconnect (w : World) : World :=
  w |> print (log "Reconnecting WebSocket...")
    |> set_reconnectTimeout None
    |> connect.

Definition onopen (w : World) : World :=
  let w := w |> print (log "WebSocket connected") in
  match reconnectTimeout w with
  | Some h => w |> clearTimeout h |> set_reconnectTimeout None
  | None => w
  end.

Definition onmessage (raw : string) (w : World) : World :=
  match JSON_parse raw with
  | Some data =>
      let (w', threw) := notifyListeners data w in
      if threw
      then w' |> print (err "Failed to parse WebSocket message")
      else w'
  | None => w |> print (err "Failed to parse WebSocket message")
  end.

Definition onclose (w : World) : World :=
  let w := w |> print (log "WebSocket disconnected") in
  if negb (isExplicitlyClosed w) then scheduleReconnect w else w.

(** [this.ws?.close()] closes whatever socket the service holds now. *)
Definition onerror (w : World) : World :=
  let w := w |> print (err "WebSocket error") in
  match ws w with
  | Some s => close s w
  | None => w
  end.

Definition disconnect (w : World) : World :=
  let w := w |> set_isExplicitlyClosed true in
  let w :=
    match ws w with
    | Some s => w |> close s |> set_ws None
    | None => w
    end in
  match reconnectTimeout w with
  | Some h => w |> clearTimeout h
  | None => w
  end.

(** ** The event loop

    Socket events are delivered to the handlers [connect] installed on
    that socket; all of them close over the service, not over the
    socket.  A socket opens once, receives messages only while open,
    and reports closed once. *)
Definition step (w : World) (e : Event) : option World :=
  match e with
  | Connect => Some (connect w)
  | Disconnect => Some (disconnect w)
  | Subscribe l => Some (subscribe l w)
  | Unsubscribe l => Some (unsubscribe l w)
  | SockOpen s =>
      match readyState s w with
      | Some CONNECTING => Some (w |> set_readyState s OPEN |> onopen)
      | _ => None
      end
  | SockMessage s raw =>
      match readyState s w with
      | Some OPEN => Some (onmessage raw w)
      | _ => None
      end
  | SockError s =>
      match readyState s w with
      | Some CONNECTING | Some OPEN | Some CLOSING => Some (onerror w)
      | _ => None
      end
  | SockClose s =>
      match readyState s w with
      | Some CONNECTING | Some OPEN | Some CLOSING =>
          Some (w |> set_readyState s CLOSED |> onclose)
      | _ => None
      end
  | Fire h =>
      match armed h w with
      | Some t =>
          if Nat.leb (armed_at t + delay t) (now w) then
            Some (w |> expire h |> reconnect)
          else None
      | None => None
      end
  | Elapse ms => Some (elapse ms w)
  end.

Fixpoint run (w : World) (tr : list Event) : option World :=
  match tr with
  | [] => Some w
  | e :: tr' =>
      match step w e with
      | Some w' => run w' tr'
      | None => None
      end
  end.

End Service.

End Telemetry.

(* ===================================================================== *)
(** * The [useWebSocket] hook *)
(* ===================================================================== *)

Module UseWebSocket.
Import Telemetry.

Inductive JSValue :=
| undefined
| value (j : JSON).

Record State := {
  telemetry : JSValue;
  isConnected : bool
}.

(** [useState(null)], [useState(false)]. *)
Definition initial : State :=
  {| telemetry := value JNull; isConnected := false |}.

Fixpoint lookup (k : string) (ms : list (string * JSON)) : JSValue :=
  match ms with
  | [] => undefined
  | (k', v) :: ms' => if String.eqb k' k then value v else lookup k ms'
  end.

(** [message.k] for the two keys the listener reads, [type] and [data]:
    reading a property of [null] throws ([None]); numbers, booleans,
    strings and arrays have no such property. *)
Definition member (message : JSON) (k : string) : option JSValue :=
  match message with
  | JNull => None
  | JObject ms => Some (lookup k ms)
  | _ => Some undefined
  end.

(** [v === 'text']. *)
Definition equals (v : JSValue) (text : string) : bool :=
  match v with
  | value (JString s) => String.eqb s text
  | _ => false
  end.

(** The function passed to [telemetryService.subscribe]; [None] when it
    throws. *)
Definition listener (message : JSON) (st : State) : option State :=
  match member message "type" with
  | None => None
  | Some t =>
      if equals t "telemetry" then
        match member message "data" with
        | Some d => Some {| telemetry := d; isConnected := true |}
        | None => None
        end
      else if equals t "pong" then
        Some {| telemetry := telemetry st; isConnected := true |}
      else Some st
  end.

(** Seen from the service, the listener never touches the subscriber
    set while it runs, and throws exactly when the property read does. *)
Definition reaction (l : Listener) (message : JSON) : Reaction :=
  {| unsubscribes := [];
     throws := match listener message initial with
               | Some _ => false
               | None => true
               end |}.

Definition absorb (st : State) (message : JSON) : State :=
  match listener message st with
  | Some st' => st'
  | None => st
  end.

Definition messages_for (l : Listener) (w : World) : list JSON :=
  map snd (filter (fun d => Nat.eqb (fst d) l) (delivered w)).

(** The cells of the hook instance whose listener is [l]: they change
    only inside that listener, so they are a function of what it was
    called with. *)
Definition state_of (l : Listener) (w : World) : State :=
  fold_left absorb (messages_for l w) initial.

(** The hook's effect and its cleanup. *)
Definition mount (l : Listener) : list Event := [Connect; Subscribe l].
Definition cleanup (l : Listener) : list Event := [Unsubscribe l].

(** Messages that switch [isConnected] on. *)
Definition announces (message : JSON) : bool :=
  match member message "type" with
  | Some t => equals t "telemetry" || equals t "pong"
  | None => false
  end.

End UseWebSocket.

(* ===================================================================== *)
(** * Sample runs *)
(* ===================================================================== *)

Module Samples.
Import Telemetry.
#[local] Open Scope string_scope.

Definition dq : string := String (ascii_of_nat 34) EmptyString.

(** [{"type":"pong"}] *)
Definition pong_frame : string :=
  "{" ++ dq ++ "type" ++ dq ++ ":" ++ dq ++ "pong" ++ dq ++ "}".

(** [{"type":"telemetry","data":{"cpu_usage":42.0,"active_jobs":3}}] *)
Definition telemetry_frame : string :=
  "{" ++ dq ++ "type" ++ dq ++ ":" ++ dq ++ "telemetry" ++ dq ++ ","
      ++ dq ++ "data" ++ dq ++ ":{"
      ++ dq ++ "cpu_usage" ++ dq ++ ":42.0,"
      ++ dq ++ "active_jobs" ++ dq ++ ":3}}".

Definition snapshot : JSON :=
  JObject [("cpu_usage", JNumber 420 (-1)); ("active_jobs", JNumber 3 0)].

(** [JSON.parse] on the frames the sample runs use; every other text is
    rejected. *)
Definition sample_parse (raw : string) : option JSON :=
  if String.eqb raw pong_frame then
    Some (JObject [("type", JString "pong")])
  else if String.eqb raw telemetry_frame then
    Some (JObject [("type", JString "telemetry"); ("data", snapshot)])
  else if String.eqb raw "null" then Some JNull
  else if String.eqb raw "17" then Some (JNumber 17 0)
  else None.

(** Listener 0 drops listener 1 when called, listener 1 drops itself;
    nobody throws. *)
Definition unsubscribing (l : Listener) (data : JSON) : Reaction :=
  match l with
  | 0 => {| unsubscribes := [1]; throws := false |}
  | 1 => {| unsubscribes := [1]; throws := false |}
  | _ => {| unsubscribes := []; throws := false |}
  end.

(** Four subscribers on an open socket. *)
#[local] Open Scope list_scope.

Definition four_subscribers : list Event :=
  [ Connect; Subscribe 0; Subscribe 1; Subscribe 2; Subscribe 3;
    SockOpen 1%positive ].

(** Two instances of the hook on an open socket. *)
Definition two_hooks : list Event :=
  UseWebSocket.mount 0 ++ UseWebSocket.mount 1 ++ [SockOpen 1%positive].

(** The connection drops, the caller disconnects and connects again,
    and the new socket fails before it opens. *)
Definition drop_after_cycle : list Event :=
  [ Connect; SockOpen 1%positive; SockClose 1%positive;
    Disconnect; Connect;
    SockError 2%positive; SockClose 2%positive ].

(** A message, then an explicit disconnect. *)
Definition heard_then_disconnected : list Event :=
  UseWebSocket.mount 0 ++
  [ SockOpen 1%positive; SockMessage 1%positive pong_frame; Disconnect ].

(** Two hooks hear a pong, then the second one unsubscribes. *)
Definition second_hook_leaves : list Event :=
  two_hooks ++ [SockMessage 1%positive pong_frame; Unsubscribe 1].

(** The world after a sample run of the service. *)
Definition after (call : Listener -> JSON -> Reaction) (tr : list Event)
  : World :=
  match run sample_parse call init tr with
  | Some w => w
  | None => init
  end.

Definition parse_failure : Console :=
  err "Failed to parse WebSocket message".

End Samples.

(* ===================================================================== *)
(** * Counting under removal by key *)
(* ===================================================================== *)

Section Counting.

Context {A : Type}.
Variables key P : A -> bool.

Definition count (l : list A) : nat := length (filter P l).
Definition without (l : list A) : list A :=
  filter (fun a => negb (key a)) l.
Definition weight (x : A) : nat := if P x then 1 else 0.

Lemma count_app l1 l2 : count (l1 ++ l2) = count l1 + count l2.
Proof. unfold count. now rewrite filter_app, length_app. Qed.

Lemma count_one x : count [x] = weight x.
Proof. unfold count, weight. cbn. now destruct (P x). Qed.

Lemma count_without_le l : count (without l) <= count l.
Proof.
  unfold count, without.
  induction l as [|a l IH]; cbn; [lia|].
  destruct (key a); cbn; destruct (P a); cbn; lia.
Qed.

(** Removing the entries under a key that is present takes the found
    entry's weight off the count. *)
Lemma count_without_found l x :
  find key l = Some x -> count (without l) + weight x <= count l.
Proof.
  unfold count, without, weight.
  induction l as [|a l IH]; cbn; [discriminate|].
  destruct (key a) eqn:Hk; cbn.
  - intros [= <-].
    pose proof (count_without_le l) as Hle. unfold count, without in Hle.
    destruct (P a); cbn; lia.
  - intros Hf. specialize (IH Hf). destruct (P a); cbn; lia.
Qed.

Lemma without_all l :
  (forall a, In a l -> key a = true) -> without l = [].
Proof.
  unfold without. induction l as [|a l IH]; cbn; intros H; [easy|].
  rewrite (H a (or_introl eq_refl)). cbn. apply IH. intros b Hb.
  apply H. now right.
Qed.

End Counting.

(* ===================================================================== *)
(** * Facts about the [useDiagnosticJob] hook *)
(* ===================================================================== *)

Module JobFacts.
Import Job.

(** A property kept by every step holds after every run. *)
Lemma run_preserves (I : World -> Prop) :
  (forall w e w', I w -> step w e = Some w' -> I w') ->
  forall tr w w', I w -> run w tr = Some w' -> I w'.
Proof.
  intros Hstep tr. induction tr as [|e tr IH]; cbn; intros w w' HI Hrun.
  - now injection Hrun as <-.
  - destruct (step w e) as [w1|] eqn:He; [|discriminate].
    eapply IH; [|eassumption]. eapply Hstep; eassumption.
Qed.

Lemma run_app w tr1 tr2 :
  run w (tr1 ++ tr2) =
  match run w tr1 with
  | Some w1 => run w1 tr2
  | None => None
  end.
Proof.
  revert w. induction tr1 as [|e tr1 IH]; cbn; intros w; [easy|].
  destruct (step w e); [apply IH|easy].
Qed.

(** ** What [stopPolling] touches *)

Lemma stopPolling_inflight w : inflight (stopPolling w) = inflight w.
Proof. unfold stopPolling. now destruct (pollTimeout w). Qed.

Lemma stopPolling_traffic w : traffic (stopPolling w) = traffic w.
Proof. unfold stopPolling. now destruct (pollTimeout w). Qed.

Lemma stopPolling_cells w :
  job (stopPolling w) = job w /\ error (stopPolling w) = error w /\
  isLoading (stopPolling w) = isLoading w.
Proof. unfold stopPolling. now destruct (pollTimeout w). Qed.

Lemma stopPolling_timers_for J w :
  timers_for J (stopPolling w) <= timers_for J w.
Proof.
  unfold stopPolling, timers_for. destruct (pollTimeout w) as [h|]; cbn; [|lia].
  apply (count_without_le (fun t => Pos.eqb (handle t) h)).
Qed.

Lemma stopPolling_delays w t :
  In t (timers (stopPolling w)) -> In t (timers w).
Proof.
  unfold stopPolling. destruct (pollTimeout w) as [h|]; cbn; [|easy].
  unfold disarm. rewrite filter_In. tauto.
Qed.

(** When every armed timer is the remembered one, [stopPolling] leaves
    none armed. *)
Lemma stopPolling_tracked w : tracked w -> timers (stopPolling w) = [].
Proof.
  unfold tracked, stopPolling. intros Ht.
  destruct (pollTimeout w) as [h|] eqn:Hp; cbn.
  - apply (without_all (fun t => Pos.eqb (handle t) h)).
    intros t Hin. specialize (Ht t Hin). injection Ht as ->.
    apply Pos.eqb_refl.
  - destruct (timers w) as [|t ts]; [easy|].
    now specialize (Ht t (or_introl eq_refl)).
Qed.

(** ** The token count of one job

    No step creates more tokens for job [J] than submissions answered
    with [J] were received by that step. *)


Lemma pending_request_found r w q :
  pending_request r w = Some q ->
  exists p, find (fun p => Pos.eqb (fst p) r) (inflight w) = Some p /\
            snd p = q.
Proof.
  unfold pending_request.
  destruct (find (fun p => Pos.eqb (fst p) r) (inflight w)) as [p|]; cbn;
    [|discriminate].
  intros [= <-]. now exists p.
Qed.

Lemma settle_polls J r w q entry :
  pending_request r w = Some q ->
  polls_in_flight J (settle r entry w) + (if polls J q then 1 else 0)
  <= polls_in_flight J w.
Proof.
  intros Hq. destruct (pending_request_found _ _ _ Hq) as (p & Hf & <-).
  unfold polls_in_flight. cbn.
  apply (count_without_found (fun p => Pos.eqb (fst p) r)
           (fun p => polls J (snd p)) _ _ Hf).
Qed.

Lemma expire_timers J h w t :
  armed h w = Some t ->
  timers_for J (expire h w) + (if String.eqb (poll_job t) J then 1 else 0)
  <= timers_for J w.
Proof.
  intros Hf. unfold timers_for. cbn.
  apply (count_without_found (fun t => Pos.eqb (handle t) h)
           (fun t => String.eqb (poll_job t) J) _ _ Hf).
Qed.

Lemma send_polls J q w :
  polls_in_flight J (send q w) =
  polls_in_flight J w + (if polls J q then 1 else 0).
Proof.
  unfold polls_in_flight. cbn. rewrite filter_app, length_app. cbn.
  now destruct (polls J q).
Qed.

Lemma submissions_app J w entry (w' : World) :
  traffic w' = traffic w ++ [entry] ->
  submissions J w' = submissions J w + (if creates J entry then 1 else 0).
Proof.
  unfold submissions. intros ->. rewrite filter_app, length_app. cbn.
  now destruct (creates J entry).
Qed.

Ltac count_up :=
  unfold tokens, polls_in_flight, timers_for, submissions in *;
  cbn in *;
  rewrite ?stopPolling_inflight, ?stopPolling_traffic; cbn;
  rewrite ?filter_app, ?length_app; cbn.

Lemma step_tokens J w e w' :
  step w e = Some w' ->
  tokens J w' + submissions J w <= tokens J w + submissions J w'.
Proof.
  destruct e as [file| | |r resp|r msg|h|ms]; cbn.
  - (* Submit *)
    intros [= <-]. count_up. lia.
  - (* Reset *)
    intros [= <-]. pose proof (stopPolling_timers_for J w).
    unfold reset. count_up. lia.
  - (* Unmount *)
    intros [= <-]. pose proof (stopPolling_timers_for J w).
    unfold unmount. count_up. lia.
  - (* Resolve *)
    destruct (pending_request r w) as [[f|j]|] eqn:Hq; [| |discriminate];
      intros [= <-].
    + pose proof (settle_polls J r w _
                    (Received (PostDiagnostics f) resp) Hq) as Hs.
      count_up. destruct (String.eqb (job_id resp) J); cbn; lia.
    + pose proof (settle_polls J r w _
                    (Received (GetDiagnostics j) resp) Hq) as Hs.
      unfold pollStatus_resolved.
      destruct (is_terminal (status resp)).
      * pose proof (stopPolling_timers_for J
                      (setJob (Some resp)
                         (settle r (Received (GetDiagnostics j) resp) w)))
          as Ht.
        count_up. destruct (String.eqb j J); cbn in *; lia.
      * count_up. destruct (String.eqb j J); cbn in *; lia.
  - (* Reject *)
    destruct (pending_request r w) as [[f|j]|] eqn:Hq; [| |discriminate];
      intros [= <-].
    + pose proof (settle_polls J r w _
                    (Failed (PostDiagnostics f) msg) Hq) as Hs.
      count_up. lia.
    + pose proof (settle_polls J r w _
                    (Failed (GetDiagnostics j) msg) Hq) as Hs.
      unfold pollStatus_rejected.
      match goal with
      | |- context [stopPolling ?x] =>
          pose proof (stopPolling_timers_for J x) as Ht
      end.
      count_up. destruct (String.eqb j J); cbn in *; lia.
  - (* Fire *)
    destruct (armed h w) as [t|] eqn:Ha; [|discriminate].
    destruct (Nat.leb _ _); [|discriminate]. intros [= <-].
    pose proof (expire_timers J h w t Ha) as He.
    count_up. destruct (String.eqb (poll_job t) J); cbn in *; lia.
  - (* Elapse *)
    intros [= <-]. count_up. lia.
Qed.

Lemma submissions_grow J w e w' :
  step w e = Some w' -> submissions J w <= submissions J w'.
Proof.
  unfold submissions.
  destruct e as [file| | |r resp|r msg|h|ms]; cbn.
  - intros [= <-]. cbn. rewrite filter_app, length_app. lia.
  - intros [= <-]. cbn. rewrite stopPolling_traffic. lia.
  - intros [= <-]. unfold unmount. rewrite stopPolling_traffic. lia.
  - destruct (pending_request r w) as [[f|j]|]; [| |discriminate];
      intros [= <-].
    + cbn. rewrite !filter_app, !length_app. lia.
    + unfold pollStatus_resolved. destruct (is_terminal (status resp)); cbn.
      * rewrite stopPolling_traffic. cbn. rewrite filter_app, length_app. lia.
      * rewrite filter_app, length_app. lia.
  - destruct (pending_request r w) as [[f|j]|]; [| |discriminate];
      intros [= <-]; cbn.
    + rewrite filter_app, length_app. lia.
    + rewrite stopPolling_traffic. cbn. rewrite filter_app, length_app. lia.
  - destruct (armed h w) as [t|]; [|discriminate].
    destruct (Nat.leb _ _); [|discriminate]. intros [= <-].
    cbn. rewrite filter_app, length_app. lia.
  - intros [= <-]. cbn. lia.
Qed.

Lemma tokens_bounded J tr w :
  run init tr = Some w -> tokens J w <= submissions J w.
Proof.
  apply (run_preserves (fun w => tokens J w <= submissions J w)).
  - intros w0 e w1 HI He.
    pose proof (step_tokens J _ _ _ He).
    pose proof (submissions_grow J _ _ _ He). lia.
  - cbn. lia.
Qed.

Lemma step_delays w e w' :
  (forall t, In t (timers w) -> delay t = 1000) ->
  step w e = Some w' ->
  forall t, In t (timers w') -> delay t = 1000.
Proof.
  intros HI. destruct e as [file| | |r resp|r msg|h|ms]; cbn.
  - intros [= <-]. cbn. exact HI.
  - intros [= <-]. cbn. intros t Ht. now apply HI, stopPolling_delays.
  - intros [= <-]. intros t Ht. now apply HI, stopPolling_delays.
  - destruct (pending_request r w) as [[f|j]|]; [| |discriminate];
      intros [= <-].
    + cbn. exact HI.
    + unfold pollStatus_resolved. destruct (is_terminal (status resp)); cbn.
      * intros t Ht. apply stopPolling_delays in Ht. now apply HI.
      * intros t Ht. apply in_app_or in Ht as [Ht|[<-|[]]]; [now apply HI|easy].
  - destruct (pending_request r w) as [[f|j]|]; [| |discriminate];
      intros [= <-]; cbn.
    + exact HI.
    + intros t Ht. apply stopPolling_delays in Ht. now apply HI.
  - destruct (armed h w) as [t0|]; [|discriminate].
    destruct (Nat.leb _ _); [|discriminate]. intros [= <-]. cbn.
    intros t Ht. unfold disarm in Ht. rewrite filter_In in Ht. now apply HI.
  - intros [= <-]. cbn. exact HI.
Qed.

Lemma stopPolling_length w :
  length (timers (stopPolling w)) <= length (timers w).
Proof.
  unfold stopPolling. destruct (pollTimeout w) as [h|]; cbn; [|lia].
  apply filter_length_le.
Qed.

(** A step that leaves more timers armed than before is the continuation
    of a status request that just resolved. *)
Lemma timer_armed_by_answer w e w' :
  step w e = Some w' ->
  length (timers w) < length (timers w') ->
  exists r resp j,
    e = Resolve r resp /\ pending_request r w = Some (GetDiagnostics j).
Proof.
  destruct e as [file| | |r resp|r msg|h|ms]; cbn.
  - intros [= <-]. cbn. lia.
  - intros [= <-]. cbn. pose proof (stopPolling_length w). lia.
  - intros [= <-]. unfold unmount. pose proof (stopPolling_length w). lia.
  - destruct (pending_request r w) as [[f|j]|] eqn:Hq; [| |discriminate];
      intros [= <-].
    + cbn. lia.
    + intros _. now exists r, resp, j.
  - destruct (pending_request r w) as [[f|j]|] eqn:Hq; [| |discriminate];
      intros [= <-]; cbn; [lia|].
    match goal with
    | |- context [stopPolling ?x] => pose proof (stopPolling_length x) as Ht
    end.
    cbn in Ht. lia.
  - destruct (armed h w) as [t|]; [|discriminate].
    destruct (Nat.leb _ _); [|discriminate]. intros [= <-]. cbn.
    pose proof (filter_length_le (fun t => negb (Pos.eqb (handle t) h))
                  (timers w)).
    unfold disarm. lia.
  - intros [= <-]. cbn. lia.
Qed.

(** When a submission is accepted the first status request goes out at
    once, for the job id in the answer. *)
Lemma acceptance_sends_first_poll w r f resp :
  pending_request r w = Some (PostDiagnostics f) ->
  exists w',
    step w (Resolve r resp) = Some w' /\
    job w' = Some resp /\
    timers w' = timers w /\
    traffic w' = traffic w ++ [Received (PostDiagnostics f) resp;
                               Sent (GetDiagnostics (job_id resp))].
Proof.
  intros Hq. cbn. rewrite Hq. eexists. split; [reflexivity|]. cbn.
  rewrite <- app_assoc. repeat split.
Qed.

(** A status answer that is not terminal is stored and arms one timer:
    fresh handle, armed now, 1000 ms, for the job that was polled; the
    handle goes into the ref cell, and no request is sent. *)
Lemma answer_arms_timer w r j resp :
  pending_request r w = Some (GetDiagnostics j) ->
  is_terminal (status resp) = false ->
  exists w',
    step w (Resolve r resp) = Some w' /\
    job w' = Some resp /\
    timers w' = timers w ++
      [{| handle := next_timer w; armed_at := now w; delay := 1000;
          poll_job := j |}] /\
    pollTimeout w' = Some (next_timer w) /\
    inflight w' = filter (fun p => negb (Pos.eqb (fst p) r)) (inflight w) /\
    traffic w' = traffic w ++ [Received (GetDiagnostics j) resp].
Proof.
  intros Hq Hnt. cbn. rewrite Hq. eexists. split; [reflexivity|].
  unfold pollStatus_resolved. cbn. rewrite Hnt. cbn. repeat split.
Qed.

(** An armed timer cannot fire before it is due; once due, its callback
    sends one status request for the job it was armed for and the timer
    is gone. *)
Lemma timer_fires_when_due w h t :
  armed h w = Some t ->
  (now w < armed_at t + delay t -> step w (Fire h) = None) /\
  (armed_at t + delay t <= now w ->
   exists w',
     step w (Fire h) = Some w' /\
     inflight w' = inflight w ++ [(next_request w,
                                   GetDiagnostics (poll_job t))] /\
     timers w' = disarm h (timers w) /\
     traffic w' = traffic w ++ [Sent (GetDiagnostics (poll_job t))]).
Proof.
  intros Ha. cbn. rewrite Ha. split.
  - intros Hlt. apply Nat.leb_gt in Hlt. now rewrite Hlt.
  - intros Hle. apply Nat.leb_le in Hle. rewrite Hle.
    eexists. split; [reflexivity|]. cbn. repeat split.
Qed.

(** C4, as the hook has it.  Polling is chained.  In every run of the
    hook, for a job id handed out by at most one accepted submission:
    at most one status request for it is pending at any time, and none
    while a timer for its next poll is armed.  The chain is driven as
    follows.  Every armed timer has the fixed delay of 1000 ms, and the
    only step that arms one is the continuation of a status request that
    has just resolved.  An answer that is not terminal arms exactly one
    timer, for the job polled, 1000 ms from now, and leaves no request
    for that job pending.  A timer cannot fire before it is due; once
    due it sends exactly one status request for its job. *)
Theorem polling_is_chained (J : string) (tr : list Event) (w : World) :
  run init tr = Some w ->
  submissions J w <= 1 ->
  polls_in_flight J w <= 1 /\
  (0 < timers_for J w -> polls_in_flight J w = 0) /\
  (forall t, In t (timers w) -> delay t = 1000) /\
  (forall e w', step w e = Some w' ->
     length (timers w) < length (timers w') ->
     exists r resp j,
       e = Resolve r resp /\ pending_request r w = Some (GetDiagnostics j)) /\
  (forall r resp,
     pending_request r w = Some (GetDiagnostics J) ->
     is_terminal (status resp) = false ->
     exists w',
       step w (Resolve r resp) = Some w' /\
       job w' = Some resp /\
       timers w' = timers w ++
         [{| handle := next_timer w; armed_at := now w; delay := 1000;
             poll_job := J |}] /\
       pollTimeout w' = Some (next_timer w) /\
       polls_in_flight J w' = 0 /\
       status_requests J w' = status_requests J w) /\
  (forall h t,
     armed h w = Some t ->
     (now w < armed_at t + delay t -> step w (Fire h) = None) /\
     (armed_at t + delay t <= now w ->
      exists w',
        step w (Fire h) = Some w' /\
        inflight w' = inflight w ++ [(next_request w,
                                      GetDiagnostics (poll_job t))] /\
        timers w' = disarm h (timers w) /\
        traffic w' = traffic w ++ [Sent (GetDiagnostics (poll_job t))])).
Proof.
  intros Hrun Hsub.
  pose proof (tokens_bounded J tr w Hrun) as Htok. unfold tokens in Htok.
  split; [lia|]. split; [lia|]. split; [|split; [|split]].
  - apply (run_preserves (fun w => forall t, In t (timers w) -> delay t = 1000)
             step_delays tr init w); [|exact Hrun].
    cbn. contradiction.
  - apply timer_armed_by_answer.
  - intros r resp Hq Hnt.
    destruct (answer_arms_timer w r J resp Hq Hnt)
      as (w' & Hstep & Hjob & Htm & Hpt & Hin & Htr).
    exists w'. split; [exact Hstep|]. split; [exact Hjob|].
    split; [exact Htm|]. split; [exact Hpt|]. split.
    + pose proof (settle_polls J r w _
                    (Received (GetDiagnostics J) resp) Hq) as Hs.
      cbn in Hs. rewrite String.eqb_refl in Hs.
      unfold polls_in_flight in *. cbn in Hs. rewrite Hin. lia.
    + unfold status_requests. rewrite Htr, filter_app, length_app. cbn. lia.
  - apply timer_fires_when_due.
Qed.

Lemma polling_is_chained_witness :
  let w := after first_poll_pending in
  let answer := response "abc" processing None in
  run init first_poll_pending = Some w /\
  submissions "abc" w <= 1 /\
  polls_in_flight "abc" w <= 1 /\
  exists w',
    step w (Resolve 2%positive answer) = Some w' /\
    timers w' = [{| handle := 1%positive; armed_at := 0; delay := 1000;
                    poll_job := "abc" |}] /\
    polls_in_flight "abc" w' = 0.
Proof.
  cbv zeta.
  assert (Hrun : run init first_poll_pending
                 = Some (after first_poll_pending))
    by (vm_compute; reflexivity).
  assert (Hsub : submissions "abc" (after first_poll_pending) <= 1)
    by (vm_compute; apply le_n).
  assert (Hq : pending_request 2%positive (after first_poll_pending)
               = Some (GetDiagnostics "abc"))
    by (vm_compute; reflexivity).
  assert (Hnt : is_terminal (status (response "abc" processing None))
                = false) by (vm_compute; reflexivity).
  destruct (polling_is_chained "abc" first_poll_pending
              (after first_poll_pending) Hrun Hsub)
    as (H1 & _ & _ & _ & H5 & _).
  destruct (H5 2%positive (response "abc" processing None) Hq Hnt)
    as (w' & Hstep & _ & Htm & _ & Hp & _).
  split; [exact Hrun|]. split; [exact Hsub|]. split; [exact H1|].
  exists w'. split; [exact Hstep|]. split; [|exact Hp].
  rewrite Htm. vm_compute. reflexivity.
Defined.

(** C4 as stated fails when the server answers two submissions with the
    same job id: each accepted submission starts its own chain, and two
    status requests for that job are pending at once. *)
Lemma same_job_id_polled_twice :
  exists w,
    run init same_id_twice = Some w /\
    submissions "abc" w = 2 /\
    inflight w = [(2%positive, GetDiagnostics "abc");
                  (4%positive, GetDiagnostics "abc")] /\
    polls_in_flight "abc" w = 2.
Proof.
  exists (after same_id_twice). evaluate.
Qed.

(** C6.  submit(file) is accepted with a pending job, the first status
    answer says processing, the timer armed for 1000 ms fires, and the
    second answer says completed with a result: the hook ends not
    loading, without error, exposing the completed job's result, with no
    timer armed and no request pending.  [d1], [d2], [d3] are the
    latencies of the three waits. *)
Theorem happy_path_settles (file : File) (r0 r1 r2 : JobResponse)
    (res : DiagnosticResult) (d1 d2 d3 : nat) :
  status r0 = pending ->
  status r1 = processing ->
  status r2 = completed ->
  result r2 = Some res ->
  exists w,
    run init (happy_path file r0 r1 r2 d1 d2 d3) = Some w /\
    isLoading w = false /\
    error w = None /\
    job w = Some r2 /\
    exposed_result w = Some res /\
    timers w = [] /\
    inflight w = [].
Proof.
  intros H0 H1 H2 Hres.
  destruct r0 as [j0 s0 a0 x0], r1 as [j1 s1 a1 x1], r2 as [j2 s2 a2 x2].
  cbn in H0, H1, H2, Hres. subst s0 s1 s2 x2.
  assert (Hdue : Nat.leb (d1 + 1000) (d1 + (1000 + d2)) = true)
    by (apply Nat.leb_le; lia).
  vm_compute.
  match goal with
  | |- context [match ?c with true => _ | false => _ end] =>
      change c with (Nat.leb (d1 + 1000) (d1 + (1000 + d2)))
  end.
  rewrite Hdue.
  eexists. split; [reflexivity|]. repeat split.
Qed.

Lemma happy_path_settles_witness :
  exists w,
    run init (happy_path "fw.bin"
                (response "abc" pending None)
                (response "abc" processing None)
                (response "abc" completed (Some sample_result))
                1000 0 250) = Some w /\
    isLoading w = false /\
    error w = None /\
    job w = Some (response "abc" completed (Some sample_result)) /\
    exposed_result w = Some sample_result /\
    timers w = [] /\
    inflight w = [].
Proof.
  apply (happy_path_settles "fw.bin"
           (response "abc" pending None)
           (response "abc" processing None)
           (response "abc" completed (Some sample_result))
           sample_result 1000 0 250); vm_compute; reflexivity.
Defined.


(** ** Cancellation *)

Lemma stopPolling_quiet w : timers w = [] -> timers (stopPolling w) = [].
Proof.
  unfold stopPolling. intros H. destruct (pollTimeout w); cbn; [|exact H].
  now rewrite H.
Qed.

(** From a quiet world, the only events that can run besides a new
    submission are reset, unmount and the passing of time, and they leave
    the world quiet. *)
Lemma quiet_step w e w' :
  quiet w -> is_submit e = false -> step w e = Some w' ->
  bystander e = true /\ quiet w' /\ traffic w' = traffic w /\
  (same_cells w w' \/ cleared w').
Proof.
  intros [Ht Hi] Hs. unfold quiet, same_cells, cleared.
  destruct e as [file| | |r resp|r msg|h|ms]; cbn in *; try discriminate.
  - intros [= <-]. cbn.
    rewrite stopPolling_inflight, stopPolling_traffic, stopPolling_quiet
      by assumption.
    repeat split; auto.
  - intros [= <-]. unfold unmount.
    rewrite stopPolling_inflight, stopPolling_traffic, stopPolling_quiet
      by assumption.
    destruct (stopPolling_cells w) as (-> & -> & ->).
    repeat split; auto.
  - unfold pending_request. rewrite Hi. discriminate.
  - unfold pending_request. rewrite Hi. discriminate.
  - unfold armed. rewrite Ht. discriminate.
  - intros [= <-]. cbn. repeat split; auto.
Qed.

Lemma quiet_run tr : forall w w',
  quiet w -> forallb (fun e => negb (is_submit e)) tr = true ->
  run w tr = Some w' ->
  forallb bystander tr = true /\ quiet w' /\ traffic w' = traffic w /\
  (same_cells w w' \/ cleared w').
Proof.
  induction tr as [|e tr IH]; cbn; intros w w' Hq Hn Hrun.
  - injection Hrun as <-. unfold same_cells. auto 10.
  - apply andb_prop in Hn as [He Hn]. apply negb_true_iff in He.
    destruct (step w e) as [w1|] eqn:Hstep; [|discriminate].
    destruct (quiet_step _ _ _ Hq He Hstep) as (Hb & Hq1 & Htr1 & Hc1).
    destruct (IH _ _ Hq1 Hn Hrun) as (Hbs & Hq' & Htr' & Hc').
    rewrite Hb, Hbs, Htr', Htr1. destruct Hq' as [Hq'1 Hq'2].
    split; [reflexivity|]. split; [now split|]. split; [reflexivity|].
    destruct Hc' as [Hsame|Hclr]; [|now right].
    destruct Hc1 as [Hsame1|Hclr1].
    + left. unfold same_cells in *. intuition congruence.
    + right. unfold same_cells, cleared in *. intuition congruence.
Qed.

(** C1, as the hook has it.  When reset() or the unmount cleanup runs at
    a moment where no request is pending and every armed timer is the one
    the ref cell remembers, the polling session is over: as long as
    submit is not called again, no timer callback and no request
    continuation can run (the rest of the trace consists of resets,
    unmounts and waiting), no timer is armed, no request is sent, and the
    cells [job], [error], [isLoading] keep the value cancellation gave
    them unless a later reset() clears them. *)
Theorem cancellation_is_final (w : World) (c : Event) (tr : list Event)
    (w1 w2 : World) :
  c = Reset \/ c = Unmount ->
  inflight w = [] ->
  tracked w ->
  forallb (fun e => negb (is_submit e)) tr = true ->
  step w c = Some w1 ->
  run w1 tr = Some w2 ->
  forallb bystander tr = true /\
  quiet w2 /\
  traffic w2 = traffic w /\
  (same_cells w1 w2 \/ cleared w2).
Proof.
  intros Hc Hi Ht Hn Hstep Hrun.
  assert (Hq1 : quiet w1 /\ traffic w1 = traffic w).
  { unfold quiet. destruct Hc as [-> | ->]; cbn in Hstep;
      injection Hstep as <-; [cbn | unfold unmount];
      rewrite stopPolling_inflight, stopPolling_traffic,
              (stopPolling_tracked w Ht); auto. }
  destruct Hq1 as [Hq1 Htr1].
  destruct (quiet_run tr w1 w2 Hq1 Hn Hrun) as (Hb & Hq2 & Htr2 & Hcells).
  rewrite <- Htr1, <- Htr2. auto.
Qed.

Lemma cancellation_is_final_witness :
  let w := after waiting_for_next_poll in
  let tr := [Elapse 1000; Unmount; Elapse 5] in
  let w1 := reset w in
  let w2 := elapse 5 (unmount (elapse 1000 w1)) in
  timers_for "abc" w = 1 /\
  forallb bystander tr = true /\
  quiet w2 /\
  traffic w2 = traffic w /\
  (same_cells w1 w2 \/ cleared w2).
Proof.
  cbv zeta. split; [vm_compute; reflexivity|].
  assert (Hi : inflight (after waiting_for_next_poll) = [])
    by (vm_compute; reflexivity).
  assert (Ht : tracked (after waiting_for_next_poll)).
  { unfold tracked. vm_compute. intros t [<-|[]]. reflexivity. }
  assert (Hn : forallb (fun e => negb (is_submit e))
                 [Elapse 1000; Unmount; Elapse 5] = true)
    by (vm_compute; reflexivity).
  assert (Hs : step (after waiting_for_next_poll) Reset
               = Some (reset (after waiting_for_next_poll)))
    by (vm_compute; reflexivity).
  assert (Hr : run (reset (after waiting_for_next_poll))
                 [Elapse 1000; Unmount; Elapse 5]
               = Some (elapse 5 (unmount (elapse 1000
                         (reset (after waiting_for_next_poll))))))
    by (vm_compute; reflexivity).
  exact (cancellation_is_final (after waiting_for_next_poll) Reset
           [Elapse 1000; Unmount; Elapse 5] _ _
           (or_introl eq_refl) Hi Ht Hn Hs Hr).
Defined.

(** C1 as stated fails: reset() while a status request is pending clears
    the cells and finds no timer to cancel; when the answer arrives it is
    stored in [job], a timer is armed again, and once due it fires and
    sends one more status request. *)
Lemma reset_misses_pending_request :
  exists w_reset w_answer w_end,
    run init (firstn 3 reset_during_request) = Some w_reset /\
    job w_reset = None /\ timers w_reset = [] /\
    status_requests "abc" w_reset = 1 /\
    run init (firstn 4 reset_during_request) = Some w_answer /\
    job w_answer = Some (response "abc" processing None) /\
    timers_for "abc" w_answer = 1 /\
    run init reset_during_request = Some w_end /\
    status_requests "abc" w_end = 2.
Proof.
  exists (after (firstn 3 reset_during_request)),
         (after (firstn 4 reset_during_request)),
         (after reset_during_request).
  evaluate.
Qed.

(** C3 at its failing input: submit() is called while the first job waits
    for its next poll.  The new submission is under way and the old
    job's timer is still armed; when it fires, another status request for
    the old job goes out. *)
Theorem resubmit_keeps_polling_old_job :
  exists w_new w_end,
    run init (firstn 4 resubmit_while_polling) = Some w_new /\
    isLoading w_new = true /\ job w_new = None /\
    timers_for "abc" w_new = 1 /\
    status_requests "abc" w_new = 1 /\
    run init resubmit_while_polling = Some w_end /\
    status_requests "abc" w_end = 2.
Proof.
  exists (after (firstn 4 resubmit_while_polling)),
         (after resubmit_while_polling).
  evaluate.
Qed.

(** ** Further facts about the hook *)

Lemma run_preserves_allowed (I : World -> Prop) (allowed : Event -> bool) :
  (forall w e w', I w -> allowed e = true -> step w e = Some w' -> I w') ->
  forall tr w w',
    I w -> forallb allowed tr = true -> run w tr = Some w' -> I w'.
Proof.
  intros Hstep tr. induction tr as [|e tr IH]; cbn; intros w w' HI Hall Hrun.
  - now injection Hrun as <-.
  - apply andb_prop in Hall as [He Hall].
    destruct (step w e) as [w1|] eqn:Hs; [|discriminate].
    eapply IH; [|eassumption|eassumption]. eapply Hstep; eassumption.
Qed.

Lemma or_default_nonempty s d :
  d <> EmptyString -> or_default s d <> EmptyString.
Proof. destruct s; cbn; [auto|discriminate]. Qed.

(** X1.  Whatever the failure reports as its message, also nothing at all,
    the error the hook exposes is a non-empty text. *)
Theorem error_is_never_empty (tr : list Event) (w : World) (e : string) :
  run init tr = Some w -> error w = Some e -> e <> EmptyString.
Proof.
  intros Hrun. revert e.
  apply (run_preserves
           (fun w => forall e, error w = Some e -> e <> EmptyString))
    with (tr := tr) (w := init); [|discriminate|exact Hrun].
  clear. intros w ev w' HI.
  destruct ev as [file| | |r resp|r msg|h|ms]; cbn.
  - intros [= <-]. discriminate.
  - intros [= <-]. discriminate.
  - intros [= <-]. unfold unmount.
    destruct (stopPolling_cells w) as (_ & -> & _). exact HI.
  - destruct (pending_request r w) as [[f|j]|]; [| |discriminate];
      intros [= <-].
    + exact HI.
    + unfold pollStatus_resolved. destruct (is_terminal (status resp)).
      * cbn. match goal with |- context [stopPolling ?v] =>
          destruct (stopPolling_cells v) as (_ & -> & _) end.
        exact HI.
      * exact HI.
  - destruct (pending_request r w) as [[f|j]|]; [| |discriminate];
      intros [= <-]; cbn.
    + intros e [= <-]. now apply or_default_nonempty.
    + match goal with |- context [stopPolling ?v] =>
        destruct (stopPolling_cells v) as (_ & -> & _) end.
      cbn. intros e [= <-]. now apply or_default_nonempty.
  - destruct (armed h w) as [t|]; [|discriminate].
    destruct (Nat.leb _ _); [|discriminate]. intros [= <-]. exact HI.
  - intros [= <-]. exact HI.
Qed.

Lemma error_is_never_empty_witness :
  exists w e,
    run init [Submit "fw.bin"; Reject 1%positive EmptyString] = Some w /\
    error w = Some e /\ e <> EmptyString.
Proof.
  exists (after [Submit "fw.bin"; Reject 1%positive EmptyString]),
         "Failed to submit job".
  assert (Hrun : run init [Submit "fw.bin"; Reject 1%positive EmptyString]
                 = Some (after [Submit "fw.bin";
                                Reject 1%positive EmptyString]))
    by (vm_compute; reflexivity).
  assert (Herr : error (after [Submit "fw.bin";
                               Reject 1%positive EmptyString])
                 = Some "Failed to submit job")
    by (vm_compute; reflexivity).
  split; [exact Hrun|]. split; [exact Herr|].
  exact (error_is_never_empty _ _ _ Hrun Herr).
Defined.

(** X2.  As long as the component stays mounted, the loading flag is never
    left on without something to end it: whenever [isLoading] is true a
    request is pending or a poll timer is armed. *)
Theorem loading_has_a_cause (tr : list Event) (w : World) :
  forallb (fun e => negb (is_unmount e)) tr = true ->
  run init tr = Some w ->
  isLoading w = true ->
  inflight w <> [] \/ timers w <> [].
Proof.
  intros Hall Hrun.
  apply (run_preserves_allowed
           (fun w => isLoading w = true ->
                     inflight w <> [] \/ timers w <> [])
           (fun e => negb (is_unmount e)))
    with (tr := tr) (w := init); [|discriminate|exact Hall|exact Hrun].
  clear. intros w ev w' HI Hm.
  destruct ev as [file| | |r resp|r msg|h|ms]; cbn in *; try discriminate.
  - intros [= <-] _. left. cbn. now destruct (inflight w).
  - intros [= <-]. discriminate.
  - destruct (pending_request r w) as [[f|j]|]; [| |discriminate];
      intros [= <-] Hl.
    + left. cbn.
      now destruct (filter (fun p => negb (Pos.eqb (fst p) r)) (inflight w)).
    + unfold pollStatus_resolved in *.
      destruct (is_terminal (status resp)); [discriminate|].
      right. cbn. now destruct (timers w).
  - destruct (pending_request r w) as [[f|j]|]; [| |discriminate];
      intros [= <-]; discriminate.
  - destruct (armed h w) as [t|]; [|discriminate].
    destruct (Nat.leb _ _); [|discriminate]. intros [= <-] _.
    left. cbn. now destruct (inflight w).
  - intros [= <-]. exact HI.
Qed.

Lemma loading_has_a_cause_witness :
  let w := after waiting_for_next_poll in
  isLoading w = true /\ (inflight w <> [] \/ timers w <> []).
Proof.
  cbv zeta.
  assert (Hall : forallb (fun e => negb (is_unmount e))
                   waiting_for_next_poll = true)
    by (vm_compute; reflexivity).
  assert (Hrun : run init waiting_for_next_poll
                 = Some (after waiting_for_next_poll))
    by (vm_compute; reflexivity).
  assert (Hl : isLoading (after waiting_for_next_poll) = true)
    by (vm_compute; reflexivity).
  split; [exact Hl|].
  exact (loading_has_a_cause _ _ Hall Hrun Hl).
Defined.

Lemma known_grows J (w w' : World) more :
  traffic w' = traffic w ++ more -> known J w -> known J w'.
Proof.
  intros Ht (f & resp & Hin & Hj). exists f, resp. split; [|exact Hj].
  rewrite Ht. apply in_or_app. now left.
Qed.

Lemma polled_known_step w e w' :
  (forall J, polled J w -> known J w) ->
  step w e = Some w' ->
  forall J, polled J w' -> known J w'.
Proof.
  intros HI Hs J.
  assert (Hold : forall more,
            traffic w' = traffic w ++ more -> polled J w -> known J w').
  { intros more Ht Hp. eapply known_grows; [exact Ht|]. now apply HI. }
  destruct e as [file| | |r resp|r msg|h|ms]; cbn in Hs.
  - injection Hs as <-. intros [Hp|[(r & Hp)|(t & Hp & Ht)]]; cbn in Hp;
      apply (Hold [Sent (PostDiagnostics file)] eq_refl).
    + apply in_app_or in Hp as [Hp|[Hp|[]]]; [now left|discriminate].
    + apply in_app_or in Hp as [Hp|[Hp|[]]]; [|discriminate].
      right. left. now exists r.
    + right. right. now exists t.
  - injection Hs as <-. intros [Hp|[(r & Hp)|(t & Hp & Ht)]]; cbn in Hp;
      rewrite ?stopPolling_traffic, ?stopPolling_inflight in Hp;
      apply (Hold []); try (cbn; now rewrite stopPolling_traffic, app_nil_r).
    + now left.
    + right. left. now exists r.
    + right. right. exists t. split; [now apply stopPolling_delays|exact Ht].
  - injection Hs as <-. unfold unmount.
    intros [Hp|[(r & Hp)|(t & Hp & Ht)]];
      rewrite ?stopPolling_traffic, ?stopPolling_inflight in Hp;
      apply (Hold []); try (now rewrite stopPolling_traffic, app_nil_r).
    + now left.
    + right. left. now exists r.
    + right. right. exists t. split; [now apply stopPolling_delays|exact Ht].
  - destruct (pending_request r w) as [[f|j]|] eqn:Hq; [| |discriminate];
      injection Hs as <-.
    + (* the submission is accepted: its job id becomes known *)
      intros [Hp|[(r0 & Hp)|(t & Hp & Ht)]]; cbn in Hp.
      * apply in_app_or in Hp as [Hp|[Hp|[]]].
        -- apply in_app_or in Hp as [Hp|[Hp|[]]]; [|discriminate].
           eapply (known_grows J w); [cbn; now rewrite <- app_assoc|].
           apply HI. now left.
        -- injection Hp as <-. exists f, resp. split; [|reflexivity].
           cbn. apply in_or_app. left. apply in_or_app. right. now left.
      * apply in_app_or in Hp as [Hp|[Hp|[]]].
        -- apply filter_In in Hp as [Hp _].
           eapply (known_grows J w); [cbn; now rewrite <- app_assoc|].
           apply HI. right. left. now exists r0.
        -- injection Hp as _ <-. exists f, resp. split; [|reflexivity].
           cbn. apply in_or_app. left. apply in_or_app. right. now left.
      * eapply (known_grows J w); [cbn; now rewrite <- app_assoc|].
        apply HI. right. right. now exists t.
    + (* a status answer: the next poll is for the same job *)
      apply pending_request_found in Hq as ([r1 q1] & Hf & Hq1).
      cbn in Hq1. subst q1. apply find_some in Hf as [Hf _].
      assert (Hj : known j w) by (apply HI; right; left; now exists r1).
      unfold pollStatus_resolved.
      destruct (is_terminal (status resp)); cbn;
        intros [Hp|[(r0 & Hp)|(t & Hp & Ht)]]; cbn in Hp;
        rewrite ?stopPolling_traffic, ?stopPolling_inflight in Hp;
        cbn in Hp.
      * apply in_app_or in Hp as [Hp|[Hp|[]]]; [|discriminate].
        eapply (known_grows J w); [cbn; now rewrite stopPolling_traffic|].
        apply HI. now left.
      * apply filter_In in Hp as [Hp _].
        eapply (known_grows J w); [cbn; now rewrite stopPolling_traffic|].
        apply HI. right. left. now exists r0.
      * apply stopPolling_delays in Hp. cbn in Hp.
        eapply (known_grows J w); [cbn; now rewrite stopPolling_traffic|].
        apply HI. right. right. now exists t.
      * apply in_app_or in Hp as [Hp|[Hp|[]]]; [|discriminate].
        eapply (known_grows J w); [reflexivity|]. apply HI. now left.
      * apply filter_In in Hp as [Hp _].
        eapply (known_grows J w); [reflexivity|].
        apply HI. right. left. now exists r0.
      * apply in_app_or in Hp as [Hp|[Hp|[]]].
        -- eapply (known_grows J w); [reflexivity|].
           apply HI. right. right. now exists t.
        -- subst t. cbn in Ht. subst J.
           eapply (known_grows j w); [reflexivity|exact Hj].
  - destruct (pending_request r w) as [[f|j]|] eqn:Hq; [| |discriminate];
      injection Hs as <-; cbn;
      intros [Hp|[(r0 & Hp)|(t & Hp & Ht)]]; cbn in Hp;
      rewrite ?stopPolling_traffic, ?stopPolling_inflight in Hp;
      cbn in Hp;
      (eapply (known_grows J w);
       [cbn; rewrite ?stopPolling_traffic; reflexivity|]); apply HI.
    + apply in_app_or in Hp as [Hp|[Hp|[]]]; [now left|discriminate].
    + apply filter_In in Hp as [Hp _]. right. left. now exists r0.
    + right. right. now exists t.
    + apply in_app_or in Hp as [Hp|[Hp|[]]]; [now left|discriminate].
    + apply filter_In in Hp as [Hp _]. right. left. now exists r0.
    + apply stopPolling_delays in Hp. right. right. now exists t.
  - destruct (armed h w) as [t0|] eqn:Ha; [|discriminate].
    destruct (Nat.leb _ _); [|discriminate]. injection Hs as <-.
    apply find_some in Ha as [Ha _].
    assert (Hj : known (poll_job t0) w)
      by (apply HI; right; right; now exists t0).
    intros [Hp|[(r0 & Hp)|(t & Hp & Ht)]]; cbn in Hp;
      (eapply (known_grows J w); [reflexivity|]).
    + apply in_app_or in Hp as [Hp|[Hp|[]]]; [apply HI; now left|].
      injection Hp as <-. exact Hj.
    + apply in_app_or in Hp as [Hp|[Hp|[]]].
      * apply HI. right. left. now exists r0.
      * injection Hp as _ <-. exact Hj.
    + unfold disarm in Hp. apply filter_In in Hp as [Hp _].
      apply HI. right. right. now exists t.
  - injection Hs as <-. intros Hp. apply (Hold []); [cbn; now rewrite app_nil_r|].
    exact Hp.
Qed.

(** X3.  The hook never asks for the status of a job it was not given: every
    status request sent, pending or scheduled is for a job id that the
    server returned for an accepted submission. *)
Theorem polls_only_known_jobs (tr : list Event) (w : World) (J : string) :
  run init tr = Some w -> polled J w -> known J w.
Proof.
  intros Hrun. revert J.
  apply (run_preserves (fun w => forall J, polled J w -> known J w)
           polled_known_step tr init w); [|exact Hrun].
  intros J [[]|[(r & [])|(t & [] & _)]].
Qed.

Lemma polls_only_known_jobs_witness :
  let w := after waiting_for_next_poll in
  polled "abc" w /\ known "abc" w.
Proof.
  cbv zeta.
  assert (Hrun : run init waiting_for_next_poll
                 = Some (after waiting_for_next_poll))
    by (vm_compute; reflexivity).
  assert (Hp : polled "abc" (after waiting_for_next_poll)).
  { left. vm_compute. right. right. now left. }
  split; [exact Hp|].
  exact (polls_only_known_jobs _ _ _ Hrun Hp).
Defined.

(** X4.  A submission that fails on an idle hook leaves it idle: not
    loading, no job, the failure's message (or the default text) as the
    error, nothing pending or armed, and no status request sent. *)
Theorem failed_submission_leaves_hook_idle (w : World) (file : File)
    (msg : string) :
  quiet w ->
  exists w',
    run w [Submit file; Reject (next_request w) msg] = Some w' /\
    isLoading w' = false /\
    job w' = None /\
    error w' = Some (or_default msg "Failed to submit job") /\
    quiet w' /\
    forall J, status_requests J w' = status_requests J w.
Proof.
  intros [Ht Hi].
  assert (Hp : pending_request (next_request w) (submit file w)
               = Some (PostDiagnostics file)).
  { unfold pending_request. cbn. rewrite Hi. cbn.
    now rewrite Pos.eqb_refl. }
  exists (submit_rejected msg
            (settle (next_request w) (Failed (PostDiagnostics file) msg)
               (submit file w))).
  split; [cbn; now rewrite Hp|].
  unfold quiet, status_requests. cbn. rewrite Hi, Ht. cbn.
  rewrite Pos.eqb_refl. cbn.
  repeat split; auto.
  intros J. rewrite !filter_app, !length_app. cbn. lia.
Qed.

Lemma failed_submission_leaves_hook_idle_witness :
  exists w',
    run init [Submit "fw.bin"; Reject 1%positive "Network Error"] = Some w' /\
    isLoading w' = false /\
    job w' = None /\
    error w' = Some "Network Error" /\
    quiet w'.
Proof.
  destruct (failed_submission_leaves_hook_idle init "fw.bin" "Network Error")
    as (w' & H1 & H2 & H3 & H4 & H5 & _).
  - split; reflexivity.
  - exists w'. split; [exact H1|]. split; [exact H2|]. split; [exact H3|].
    split; [exact H4|exact H5].
Defined.

(** X5.  One failed poll ends the session: when the only pending request is a
    status request and it fails, the hook stops loading, records the
    error, keeps the last job it saw, and has nothing pending or armed;
    from then on no request is sent unless submit is called. *)
Theorem failed_poll_ends_session (w : World) (r : RequestId)
    (j msg : string) :
  inflight w = [(r, GetDiagnostics j)] ->
  tracked w ->
  exists w',
    step w (Reject r msg) = Some w' /\
    isLoading w' = false /\
    error w' = Some (or_default msg "Failed to poll job status") /\
    job w' = job w /\
    quiet w' /\
    forall tr w'',
      forallb (fun e => negb (is_submit e)) tr = true ->
      run w' tr = Some w'' ->
      quiet w'' /\ traffic w'' = traffic w'.
Proof.
  intros Hi Ht.
  assert (Hp : pending_request r w = Some (GetDiagnostics j)).
  { unfold pending_request. rewrite Hi. cbn. now rewrite Pos.eqb_refl. }
  set (w' := pollStatus_rejected msg
               (settle r (Failed (GetDiagnostics j) msg) w)).
  assert (Hq : quiet w').
  { unfold quiet, w', pollStatus_rejected. cbn.
    rewrite stopPolling_inflight. cbn. rewrite Hi. cbn.
    rewrite Pos.eqb_refl. cbn. split; [|reflexivity].
    apply stopPolling_tracked. exact Ht. }
  exists w'. split; [cbn; now rewrite Hp|].
  split; [reflexivity|].
  assert (Hcells : error w'
                   = Some (or_default msg "Failed to poll job status") /\
                   job w' = job w).
  { unfold w', pollStatus_rejected. cbn.
    match goal with |- context [stopPolling ?v] =>
      destruct (stopPolling_cells v) as (Hj & He & _) end.
    rewrite Hj, He. split; reflexivity. }
  destruct Hcells as [He Hj].
  split; [exact He|]. split; [exact Hj|]. split; [exact Hq|].
  intros tr w'' Hn Hrun.
  destruct (quiet_run tr _ _ Hq Hn Hrun) as (_ & Hq' & Htr & _).
  split; [exact Hq'|exact Htr].
Qed.

Lemma failed_poll_ends_session_witness :
  let w := after first_poll_pending in
  exists w',
    step w (Reject 2%positive "timeout of 30000ms exceeded") = Some w' /\
    isLoading w' = false /\
    error w' = Some "timeout of 30000ms exceeded" /\
    job w' = job w /\
    quiet w'.
Proof.
  cbv zeta.
  assert (Hi : inflight (after first_poll_pending)
               = [(2%positive, GetDiagnostics "abc")])
    by (vm_compute; reflexivity).
  assert (Ht : tracked (after first_poll_pending)).
  { unfold tracked. vm_compute. contradiction. }
  destruct (failed_poll_ends_session (after first_poll_pending) 2%positive
              "abc" "timeout of 30000ms exceeded" Hi Ht)
    as (w' & H1 & H2 & H3 & H4 & H5 & _).
  exists w'. split; [exact H1|]. split; [exact H2|]. split; [exact H3|].
  split; [exact H4|exact H5].
Defined.

(** X6.  A terminal answer ends the session: when the only pending request
    is a status request, every armed timer is the one the ref cell
    remembers, and the request is answered completed or failed, the hook
    stores the answer, stops loading, and has nothing pending or armed;
    from then on no request is sent unless submit is called. *)
Theorem terminal_answer_ends_session (w : World) (r : RequestId)
    (j : string) (resp : JobResponse) :
  inflight w = [(r, GetDiagnostics j)] ->
  tracked w ->
  is_terminal (status resp) = true ->
  exists w',
    step w (Resolve r resp) = Some w' /\
    job w' = Some resp /\
    exposed_result w' = result resp /\
    isLoading w' = false /\
    error w' = error w /\
    quiet w' /\
    forall tr w'',
      forallb (fun e => negb (is_submit e)) tr = true ->
      run w' tr = Some w'' ->
      quiet w'' /\ traffic w'' = traffic w'.
Proof.
  intros Hi Ht Hterm.
  assert (Hp : pending_request r w = Some (GetDiagnostics j)).
  { unfold pending_request. rewrite Hi. cbn. now rewrite Pos.eqb_refl. }
  set (w' := pollStatus_resolved j resp
               (settle r (Received (GetDiagnostics j) resp) w)).
  assert (Hw' : w' = setIsLoading false
                       (stopPolling
                          (setJob (Some resp)
                             (settle r (Received (GetDiagnostics j) resp)
                                w)))).
  { unfold w', pollStatus_resolved. now rewrite Hterm. }
  assert (Hq : quiet w').
  { rewrite Hw'. unfold quiet. cbn.
    rewrite stopPolling_inflight. cbn. rewrite Hi. cbn.
    rewrite Pos.eqb_refl. cbn. split; [|reflexivity].
    apply stopPolling_tracked. exact Ht. }
  assert (Hcells : job w' = Some resp /\ error w' = error w).
  { rewrite Hw'. cbn.
    match goal with |- context [stopPolling ?v] =>
      destruct (stopPolling_cells v) as (Hj & He & _) end.
    rewrite Hj, He. split; reflexivity. }
  destruct Hcells as [Hj He].
  exists w'. split; [cbn; now rewrite Hp|].
  split; [exact Hj|]. split; [unfold exposed_result; now rewrite Hj|].
  split; [now rewrite Hw'|]. split; [exact He|]. split; [exact Hq|].
  intros tr w'' Hn Hrun.
  destruct (quiet_run tr _ _ Hq Hn Hrun) as (_ & Hq' & Htr & _).
  split; [exact Hq'|exact Htr].
Qed.

Lemma terminal_answer_ends_session_witness :
  let w := after first_poll_pending in
  let done := response "abc" failed None in
  exists w',
    step w (Resolve 2%positive done) = Some w' /\
    job w' = Some done /\
    isLoading w' = false /\
    quiet w'.
Proof.
  cbv zeta.
  assert (Hi : inflight (after first_poll_pending)
               = [(2%positive, GetDiagnostics "abc")])
    by (vm_compute; reflexivity).
  assert (Ht : tracked (after first_poll_pending)).
  { unfold tracked. vm_compute. contradiction. }
  destruct (terminal_answer_ends_session (after first_poll_pending)
              2%positive "abc" (response "abc" failed None) Hi Ht eq_refl)
    as (w' & H1 & H2 & _ & H3 & _ & H4 & _).
  exists w'. split; [exact H1|]. split; [exact H2|]. split; [exact H3|exact H4].
Defined.

End JobFacts.

(* ===================================================================== *)
(** * Facts about the [TelemetryWebSocket] service *)
(* ===================================================================== *)

Module TelemetryFacts.
Import Telemetry.

#[local] Arguments disarm : simpl never.

(** ** The listener set *)

Lemma set_delete_shrinks l es : shrinks es (set_delete l es).
Proof.
  unfold shrinks. induction es as [|e es [IHlen IHnth]]; cbn.
  - split; [reflexivity|]. intros [|j] x; discriminate.
  - destruct (holds l e) eqn:Hh; cbn.
    + split; [reflexivity|]. intros [|j] x; cbn; [discriminate|easy].
    + split; [now rewrite IHlen|]. intros [|j] x; cbn; [easy|apply IHnth].
Qed.

Lemma shrinks_refl es : shrinks es es.
Proof. now split. Qed.

Lemma shrinks_trans es1 es2 es3 :
  shrinks es1 es2 -> shrinks es2 es3 -> shrinks es1 es3.
Proof.
  intros [L1 N1] [L2 N2]. split; [congruence|]. intros j x H. auto.
Qed.

Lemma shrinks_well_formed es es' :
  shrinks es es' -> well_formed es -> well_formed es'.
Proof. intros [_ N] W i j x Hi Hj. eapply W; eauto. Qed.

Section Dispatch.

Variable JSON_parse : string -> option JSON.
Variable call : Listener -> JSON -> Reaction.

Notation invoke := (invoke call).
Notation forEach := (forEach call).
Notation notifyListeners := (notifyListeners call).

Lemma unsubscribe_all_spec xs w :
  let w' := fold_left (fun w x => unsubscribe x w) xs w in
  wiring w' = wiring w /\ console w' = console w /\
  delivered w' = delivered w /\ shrinks (listeners w) (listeners w').
Proof.
  revert w. induction xs as [|x xs IH]; cbn; intros w.
  - repeat split; auto.
  - destruct (IH (unsubscribe x w)) as (Hw & Hc & Hd & Hs).
    repeat split; try assumption.
    + eapply proj1, shrinks_trans; [|exact Hs]. apply set_delete_shrinks.
    + eapply proj2, shrinks_trans; [|exact Hs]. apply set_delete_shrinks.
Qed.

Lemma invoke_spec l data w :
  let w' := fst (invoke l data w) in
  wiring w' = wiring w /\ console w' = console w /\
  delivered w' = delivered w ++ [(l, data)] /\
  shrinks (listeners w) (listeners w').
Proof.
  unfold Telemetry.invoke. cbn.
  destruct (unsubscribe_all_spec (unsubscribes (call l data))
              (record_call l data w)) as (Hw & Hc & Hd & Hs).
  repeat split; try assumption; apply Hs.
Qed.

(** What one run of the loop does, started at position [i] with [k]
    positions to go. *)
Lemma forEach_spec k : forall i data w w' threw,
  forEach k i data w = (w', threw) ->
  exists calls,
    delivered w' = delivered w ++ map (fun l => (l, data)) calls /\
    wiring w' = wiring w /\ console w' = console w /\
    shrinks (listeners w) (listeners w') /\
    (forall l, In l calls ->
       exists j, i <= j /\ nth_error (listeners w) j = Some (Some l)) /\
    (well_formed (listeners w) -> NoDup calls) /\
    (threw = true -> exists l, In l calls /\ throws (call l data) = true) /\
    (threw = false ->
       forall j x, i <= j < i + k ->
         nth_error (listeners w') j = Some (Some x) -> In x calls).
Proof.
  induction k as [|k IH]; intros i data w w' threw; cbn [Telemetry.forEach].
  - intros [= <- <-]. exists []. cbn. rewrite app_nil_r.
    repeat split; auto; try easy.
    + constructor.
    + intros j x Hj. lia.
  - destruct (nth_error (listeners w) i) as [[l|]|] eqn:Hi.
    + destruct (invoke l data w) as [w1 b] eqn:Hinv.
      pose proof (invoke_spec l data w) as Hspec. rewrite Hinv in Hspec.
      cbn in Hspec. destruct Hspec as (Hw1 & Hc1 & Hd1 & Hs1).
      destruct b.
      * intros [= <- <-]. exists [l]. cbn.
        repeat split; auto; try apply Hs1; try easy.
        -- intros l' [<-|[]]. exists i. auto.
        -- intros _. repeat constructor. easy.
        -- intros _. exists l. split; [now left|].
           unfold Telemetry.invoke in Hinv. now injection Hinv.
      * intros Hrest.
        destruct (IH _ _ _ _ _ Hrest)
          as (calls & Hd & Hw & Hc & Hs & Horigin & Hnodup & Hthrow & Hcover).
        exists (l :: calls). cbn.
        assert (Horigin' : forall l', In l' calls ->
                  exists j, S i <= j /\
                            nth_error (listeners w) j = Some (Some l')).
        { intros l' Hin. destruct (Horigin l' Hin) as (j & Hj & Hn).
          exists j. split; [exact Hj|]. now apply Hs1. }
        repeat split.
        -- rewrite Hd, Hd1, <- app_assoc. reflexivity.
        -- congruence.
        -- congruence.
        -- eapply proj1, shrinks_trans; eassumption.
        -- eapply proj2, shrinks_trans; eassumption.
        -- intros l' [<-|Hin]; [exists i; auto|].
           destruct (Horigin' l' Hin) as (j & Hj & Hn). exists j. split; [lia|easy].
        -- intros Hwf. constructor.
           ++ intros Hin. destruct (Horigin' l Hin) as (j & Hj & Hn).
              specialize (Hwf i j l Hi Hn). lia.
           ++ apply Hnodup. eapply shrinks_well_formed; eassumption.
        -- intros Ht. destruct (Hthrow Ht) as (l' & Hin & Hth).
           exists l'. split; [now right|easy].
        -- intros Ht j x Hj Hn.
           destruct (Nat.eq_dec j i) as [->|Hne].
           ++ left. apply Hs in Hn. apply Hs1 in Hn. congruence.
           ++ right. apply (Hcover Ht j x); [lia|exact Hn].
    + intros Hrest.
      destruct (IH _ _ _ _ _ Hrest)
        as (calls & Hd & Hw & Hc & Hs & Horigin & Hnodup & Hthrow & Hcover).
      exists calls. repeat split; try assumption; try apply Hs.
      * intros l' Hin. destruct (Horigin l' Hin) as (j & Hj & Hn).
        exists j. split; [lia|easy].
      * intros Ht j x Hj Hn.
        destruct (Nat.eq_dec j i) as [->|Hne].
        -- apply Hs in Hn. congruence.
        -- apply (Hcover Ht j x); [lia|exact Hn].
    + intros Hrest.
      destruct (IH _ _ _ _ _ Hrest)
        as (calls & Hd & Hw & Hc & Hs & Horigin & Hnodup & Hthrow & Hcover).
      exists calls. repeat split; try assumption; try apply Hs.
      * intros l' Hin. destruct (Horigin l' Hin) as (j & Hj & Hn).
        exists j. split; [lia|easy].
      * intros Ht j x Hj Hn.
        destruct (Nat.eq_dec j i) as [->|Hne].
        -- apply Hs in Hn. congruence.
        -- apply (Hcover Ht j x); [lia|exact Hn].
Qed.

Notation step := (step JSON_parse call).
Notation run := (run JSON_parse call).

Lemma notifyListeners_spec data w w' threw :
  notifyListeners data w = (w', threw) ->
  exists calls,
    delivered w' = delivered w ++ map (fun l => (l, data)) calls /\
    wiring w' = wiring w /\ console w' = console w /\
    shrinks (listeners w) (listeners w') /\
    (forall l, In l calls -> subscribed l w) /\
    (well_formed (listeners w) -> NoDup calls) /\
    (threw = true -> exists l, In l calls /\ throws (call l data) = true) /\
    (threw = false -> forall l, subscribed l w' -> In l calls).
Proof.
  unfold Telemetry.notifyListeners. intros Hf.
  destruct (forEach_spec _ _ _ _ _ _ Hf)
    as (calls & Hd & Hw & Hc & Hs & Horigin & Hnodup & Hthrow & Hcover).
  exists calls. repeat split; try assumption; try apply Hs.
  - intros l Hin. destruct (Horigin l Hin) as (j & _ & Hn).
    eapply nth_error_In, Hn.
  - intros Ht l Hin. apply In_nth_error in Hin as [j Hj].
    apply (Hcover Ht j l); [|exact Hj].
    assert (j < length (listeners w')) by (apply nth_error_Some; congruence).
    destruct Hs as [Hlen _]. lia.
Qed.


(** ** Messages *)

Lemma print_unsubscribe_all c xs w :
  fold_left (fun w x => unsubscribe x w) xs (print c w)
  = print c (fold_left (fun w x => unsubscribe x w) xs w).
Proof.
  revert w. induction xs as [|x xs IH]; cbn; intros w; [reflexivity|].
  apply (IH (unsubscribe x w)).
Qed.

(** The loop neither reads nor writes the console. *)
Lemma forEach_print c k : forall i data w,
  forEach k i data (print c w)
  = (print c (fst (forEach k i data w)), snd (forEach k i data w)).
Proof.
  induction k as [|k IH]; intros i data w; cbn; [reflexivity|].
  destruct (nth_error (listeners w) i) as [[l|]|]; try apply IH.
  unfold Telemetry.invoke.
  change (record_call l data (print c w))
    with (print c (record_call l data w)).
  rewrite print_unsubscribe_all.
  destruct (throws (call l data)); [reflexivity|]. apply IH.
Qed.

Lemma onmessage_print c raw w :
  delivered (onmessage JSON_parse call raw (print c w))
    = delivered (onmessage JSON_parse call raw w) /\
  listeners (onmessage JSON_parse call raw (print c w))
    = listeners (onmessage JSON_parse call raw w) /\
  wiring (onmessage JSON_parse call raw (print c w))
    = wiring (onmessage JSON_parse call raw w).
Proof.
  unfold onmessage. destruct (JSON_parse raw) as [data|]; [|now cbn].
  unfold Telemetry.notifyListeners.
  change (listeners (print c w)) with (listeners w).
  rewrite forEach_print.
  destruct (forEach (length (listeners w)) 0 data w) as [w1 [|]]; now cbn.
Qed.

(** C8.  A frame that does not parse: the handler returns normally
    after logging one error line, and that line is the only change to
    the world, so no listener was called, the socket is still open and
    the subscriber set is as before; any frame that comes next is
    delivered exactly as it would have been without the bad one. *)
Theorem unparsable_frame_is_dropped (w : World) (s : SocketId)
    (raw : string) :
  readyState s w = Some OPEN ->
  JSON_parse raw = None ->
  let w' := print (err "Failed to parse WebSocket message") w in
  step w (SockMessage s raw) = Some w' /\
  delivered w' = delivered w /\
  listeners w' = listeners w /\
  wiring w' = wiring w /\
  readyState s w' = Some OPEN /\
  forall next, exists w2 w2',
    step w (SockMessage s next) = Some w2 /\
    step w' (SockMessage s next) = Some w2' /\
    delivered w2' = delivered w2 /\
    listeners w2' = listeners w2 /\
    wiring w2' = wiring w2.
Proof.
  intros Hopen Hparse w'. subst w'. cbn.
  unfold readyState in *. cbn. rewrite Hopen.
  unfold onmessage at 1. rewrite Hparse.
  repeat split.
  intros next. do 2 eexists. split; [reflexivity|]. split; [reflexivity|].
  apply onmessage_print.
Qed.

(** The message handler on a frame that parses, when the subscribed
    listeners have no objection to it. *)
Lemma onmessage_parsed raw data w :
  JSON_parse raw = Some data ->
  (forall l, subscribed l w -> throws (call l data) = false) ->
  exists calls,
    delivered (onmessage JSON_parse call raw w)
      = delivered w ++ map (fun l => (l, data)) calls /\
    (forall l, subscribed l (onmessage JSON_parse call raw w) -> In l calls).
Proof.
  intros Hparse Hquiet. unfold onmessage. rewrite Hparse.
  destruct (notifyListeners data w) as [w' threw] eqn:Hn.
  destruct (notifyListeners_spec _ _ _ _ Hn)
    as (calls & Hd & _ & _ & _ & Horigin & _ & Hthrow & Hcover).
  destruct threw.
  - destruct (Hthrow eq_refl) as (l & Hin & Hl).
    rewrite (Hquiet l (Horigin l Hin)) in Hl. discriminate.
  - exists calls. split; [exact Hd|]. now apply Hcover.
Qed.


(** ** The reconnect timer *)

Lemma run_invariant (I : World -> Prop) (allowed : Event -> bool) :
  (forall w e w', I w -> allowed e = true -> step w e = Some w' -> I w') ->
  forall tr w w',
    I w -> forallb allowed tr = true -> run w tr = Some w' -> I w'.
Proof.
  intros Hstep tr. induction tr as [|e tr IH]; cbn; intros w w' HI Hall Hrun.
  - now injection Hrun as <-.
  - apply andb_prop in Hall as [He Hall].
    destruct (step w e) as [w1|] eqn:Hs; [|discriminate].
    eapply IH; [|eassumption|eassumption]. eapply Hstep; eassumption.
Qed.

Lemma forallb_true {A} (l : list A) : forallb (fun _ => true) l = true.
Proof. induction l; cbn; auto. Qed.

Lemma onmessage_wiring raw w :
  wiring (onmessage JSON_parse call raw w) = wiring w.
Proof.
  unfold onmessage. destruct (JSON_parse raw) as [data|]; [|reflexivity].
  destruct (notifyListeners data w) as [w' threw] eqn:Hn.
  destruct (notifyListeners_spec _ _ _ _ Hn) as (calls & _ & Hw & _).
  now destruct threw.
Qed.

Ltac same_wiring H :=
  unfold wiring in H;
  injection H as ?Hws ?Hrt ?Hflag ?Hnow ?Hsockets ?Hnsock ?Htimers ?Hntimer.

Lemma close_spec s w :
  timers (close s w) = timers w /\
  reconnectTimeout (close s w) = reconnectTimeout w /\
  isExplicitlyClosed (close s w) = isExplicitlyClosed w /\
  ws (close s w) = ws w /\
  length (sockets (close s w)) = length (sockets w).
Proof.
  unfold close. destruct (readyState s w) as [[| | |]|]; cbn;
    rewrite ?length_map; auto.
Qed.

Lemma connect_spec w :
  timers (connect w) = timers w /\
  reconnectTimeout (connect w) = reconnectTimeout w /\
  (connect w = w \/ isExplicitlyClosed (connect w) = false).
Proof.
  unfold connect.
  destruct (ws w) as [s|]; [destruct (readyState s w) as [[| | |]|]|];
    cbn; auto.
Qed.

Lemma armed_In h w t : armed h w = Some t -> In t (timers w) /\ handle t = h.
Proof.
  unfold armed. intros H. apply find_some in H as [Hin Heq].
  now apply Pos.eqb_eq in Heq.
Qed.

Lemma disarm_tracked h w :
  tracked w -> reconnectTimeout w = Some h -> disarm h (timers w) = [].
Proof.
  intros Ht Hr. apply (without_all (fun t => Pos.eqb (handle t) h)).
  intros t Hin. specialize (Ht t Hin). rewrite Hr in Ht.
  injection Ht as ->. apply Pos.eqb_refl.
Qed.

Lemma tracked_none w : tracked w -> reconnectTimeout w = None -> timers w = [].
Proof.
  intros Ht Hr. destruct (timers w) as [|t ts] eqn:E; [reflexivity|].
  specialize (Ht t). rewrite E, Hr in Ht. now specialize (Ht (or_introl eq_refl)).
Qed.

Lemma scheduleReconnect_tracked w : tracked w -> tracked (scheduleReconnect w).
Proof.
  intros Ht. unfold scheduleReconnect.
  destruct (reconnectTimeout w) eqn:Hr; [exact Ht|].
  unfold tracked. cbn. rewrite (tracked_none w Ht Hr). cbn.
  now intros t [<-|[]].
Qed.

(** In every run the only timer that can be armed is the remembered
    one. *)
Lemma step_tracked w e w' : tracked w -> step w e = Some w' -> tracked w'.
Proof.
  intros Ht.
  destruct e as [| |l|l|s|s raw|s|s|h|ms]; cbn.
  - intros [= <-]. destruct (connect_spec w) as (H1 & H2 & _).
    unfold tracked. now rewrite H1, H2.
  - intros [= <-]. unfold disconnect. cbn.
    assert (Hgoal : forall v : World,
              timers v = timers w -> reconnectTimeout v = reconnectTimeout w ->
              tracked match reconnectTimeout v with
                      | Some h => clearTimeout h v
                      | None => v
                      end).
    { intros v Hv1 Hv2. rewrite Hv2.
      destruct (reconnectTimeout w) as [h|] eqn:Hr.
      - unfold tracked. cbn. rewrite Hv1, (disarm_tracked h w Ht Hr).
        contradiction.
      - unfold tracked. rewrite Hv1, (tracked_none w Ht Hr). contradiction. }
    destruct (ws w) as [s|]; apply Hgoal; cbn; auto;
      destruct (close_spec s (set_isExplicitlyClosed true w))
        as (H1 & H2 & _); assumption.
  - intros [= <-]. exact Ht.
  - intros [= <-]. exact Ht.
  - destruct (readyState s w) as [[| | |]|]; try discriminate.
    intros [= <-]. unfold onopen. cbn.
    destruct (reconnectTimeout w) as [h|] eqn:Hr.
    + unfold tracked. cbn. rewrite (disarm_tracked h w Ht Hr). contradiction.
    + exact Ht.
  - destruct (readyState s w) as [[| | |]|]; try discriminate.
    intros [= <-]. pose proof (onmessage_wiring raw w) as Hw.
    same_wiring Hw. unfold tracked. now rewrite Htimers, Hrt.
  - assert (Hgoal : tracked (onerror w)).
    { unfold onerror. cbn. destruct (ws w) as [s0|]; [|exact Ht].
      destruct (close_spec s0 (print (err "WebSocket error") w))
        as (H1 & H2 & _).
      unfold tracked. now rewrite H1, H2. }
    destruct (readyState s w) as [[| | |]|]; try discriminate;
      now intros [= <-].
  - assert (Hgoal : tracked (onclose (set_readyState s CLOSED w))).
    { unfold onclose. cbn. destruct (isExplicitlyClosed w); cbn; [exact Ht|].
      now apply scheduleReconnect_tracked. }
    destruct (readyState s w) as [[| | |]|]; try discriminate;
      now intros [= <-].
  - destruct (armed h w) as [t|] eqn:Ha; [|discriminate].
    destruct (Nat.leb _ _); [|discriminate]. intros [= <-].
    apply armed_In in Ha as [Hin Hh]. pose proof (Ht t Hin) as Hr.
    rewrite Hh in Hr.
    unfold reconnect.
    match goal with |- tracked (connect ?v) =>
      destruct (connect_spec v) as (H1 & H2 & _);
      unfold tracked; rewrite H1, H2
    end.
    cbn. rewrite (disarm_tracked h w Ht Hr). contradiction.
  - intros [= <-]. exact Ht.
Qed.

Lemma reachable_tracked tr w : run init tr = Some w -> tracked w.
Proof.
  apply (run_invariant tracked (fun _ => true)).
  - intros w0 e w1 H _. now apply step_tracked.
  - unfold tracked. cbn. contradiction.
  - apply forallb_true.
Qed.

Lemma off_step w e w' :
  off w -> is_connect e = false -> step w e = Some w' ->
  off w' /\ length (sockets w') = length (sockets w) /\ is_fire e = false.
Proof.
  intros (Hflag & Htimers & Hws) Hc. unfold off.
  destruct e as [| |l|l|s|s raw|s|s|h|ms]; cbn in *; try discriminate.
  - intros [= <-]. unfold disconnect. cbn. rewrite Hws. cbn.
    destruct (reconnectTimeout w); cbn; rewrite Htimers; auto.
  - intros [= <-]. cbn. auto.
  - intros [= <-]. cbn. auto.
  - destruct (readyState s w) as [[| | |]|]; try discriminate.
    intros [= <-]. unfold onopen. cbn.
    destruct (reconnectTimeout w); cbn; rewrite Htimers, length_map; auto.
  - destruct (readyState s w) as [[| | |]|]; try discriminate.
    intros [= <-]. pose proof (onmessage_wiring raw w) as Hw.
    same_wiring Hw. rewrite Hflag0, Htimers0, Hws0, Hsockets. auto.
  - assert (Hgoal : onerror w = print (err "WebSocket error") w).
    { unfold onerror. cbn. now rewrite Hws. }
    destruct (readyState s w) as [[| | |]|]; try discriminate;
      intros [= <-]; rewrite Hgoal; cbn; auto.
  - assert (Hgoal : onclose (set_readyState s CLOSED w)
                    = print (log "WebSocket disconnected")
                        (set_readyState s CLOSED w)).
    { unfold onclose. cbn. now rewrite Hflag. }
    destruct (readyState s w) as [[| | |]|]; try discriminate;
      intros [= <-]; rewrite Hgoal; cbn; rewrite length_map; auto.
  - unfold armed. rewrite Htimers. discriminate.
  - intros [= <-]. cbn. auto.
Qed.

Lemma off_run tr : forall w w',
  off w -> forallb (fun e => negb (is_connect e)) tr = true ->
  run w tr = Some w' ->
  off w' /\ length (sockets w') = length (sockets w) /\
  forallb (fun e => negb (is_fire e)) tr = true.
Proof.
  induction tr as [|e tr IH]; cbn; intros w w' Hoff Hall Hrun.
  - injection Hrun as <-. auto.
  - apply andb_prop in Hall as [He Hall]. apply negb_true_iff in He.
    destruct (step w e) as [w1|] eqn:Hs; [|discriminate].
    destruct (off_step _ _ _ Hoff He Hs) as (Hoff1 & Hlen1 & Hf).
    destruct (IH _ _ Hoff1 Hall Hrun) as (Hoff' & Hlen' & Hfs).
    rewrite Hf, Hfs. repeat split; try apply Hoff'. congruence.
Qed.

Lemma disconnect_spec w :
  isExplicitlyClosed (disconnect w) = true /\
  ws (disconnect w) = None /\
  reconnectTimeout (disconnect w) = reconnectTimeout w /\
  timers (disconnect w)
    = match reconnectTimeout w with
      | Some h => disarm h (timers w)
      | None => timers w
      end /\
  length (sockets (disconnect w)) = length (sockets w).
Proof.
  unfold disconnect, close, readyState. cbn.
  destruct (ws w) as [s|] eqn:Hws; cbn.
  - destruct (option_map snd (find (fun p => Pos.eqb (fst p) s) (sockets w)))
      as [[| | |]|]; cbn;
      destruct (reconnectTimeout w) eqn:Hr; cbn; rewrite ?length_map;
      repeat split; auto.
  - destruct (reconnectTimeout w) eqn:Hr; cbn; repeat split; auto.
Qed.

Lemma disconnect_off w : tracked w -> off (disconnect w).
Proof.
  intros Ht. unfold off.
  destruct (disconnect_spec w) as (Hf & Hws & _ & Htm & _).
  rewrite Hf, Hws, Htm. repeat split.
  destruct (reconnectTimeout w) as [h|] eqn:Hr.
  - apply (disarm_tracked h w Ht Hr).
  - apply (tracked_none w Ht Hr).
Qed.

Lemma disconnect_sockets w :
  length (sockets (disconnect w)) = length (sockets w).
Proof. apply disconnect_spec. Qed.

(** Only [disconnect] raises the flag. *)
Lemma scheduleReconnect_flag w :
  isExplicitlyClosed (scheduleReconnect w) = isExplicitlyClosed w.
Proof. unfold scheduleReconnect. now destruct (reconnectTimeout w). Qed.

Lemma onclose_flag w :
  isExplicitlyClosed (onclose w) = isExplicitlyClosed w.
Proof.
  unfold onclose. cbn. destruct (isExplicitlyClosed w) eqn:Hf; cbn.
  - exact Hf.
  - now rewrite scheduleReconnect_flag.
Qed.

Lemma onerror_flag w :
  isExplicitlyClosed (onerror w) = isExplicitlyClosed w.
Proof.
  unfold onerror. cbn. destruct (ws w) as [s0|]; [|reflexivity].
  apply (close_spec s0 (print (err "WebSocket error") w)).
Qed.

Lemma onopen_flag w :
  isExplicitlyClosed (onopen w) = isExplicitlyClosed w.
Proof. unfold onopen. cbn. now destruct (reconnectTimeout w). Qed.

Lemma flag_raised_by_disconnect w e w' :
  step w e = Some w' ->
  isExplicitlyClosed w = false -> isExplicitlyClosed w' = true ->
  e = Disconnect.
Proof.
  intros Hs Hf Hf'.
  assert (Hsame : isExplicitlyClosed w' = false -> e = Disconnect)
    by congruence.
  destruct e as [| |l|l|s|s raw|s|s|h|ms]; cbn in Hs; try reflexivity;
    apply Hsame; clear Hsame Hf'.
  - injection Hs as <-. destruct (connect_spec w) as (_ & _ & [-> | ->]);
      [exact Hf|reflexivity].
  - injection Hs as <-. exact Hf.
  - injection Hs as <-. exact Hf.
  - destruct (readyState s w) as [[| | |]|]; try discriminate.
    injection Hs as <-. rewrite onopen_flag. exact Hf.
  - destruct (readyState s w) as [[| | |]|]; try discriminate.
    injection Hs as <-. pose proof (onmessage_wiring raw w) as Hw.
    same_wiring Hw. congruence.
  - destruct (readyState s w) as [[| | |]|]; try discriminate;
      injection Hs as <-; rewrite onerror_flag; exact Hf.
  - destruct (readyState s w) as [[| | |]|]; try discriminate;
      injection Hs as <-; rewrite onclose_flag; exact Hf.
  - destruct (armed h w) as [t|]; [|discriminate].
    destruct (Nat.leb _ _); [|discriminate]. injection Hs as <-.
    unfold reconnect.
    match goal with |- isExplicitlyClosed (connect ?v) = _ =>
      destruct (connect_spec v) as (_ & _ & [-> | ->])
    end; [exact Hf|reflexivity].
  - injection Hs as <-. exact Hf.
Qed.

Lemma scheduleReconnect_live w :
  in_sync w ->
  in_sync (scheduleReconnect w) /\
  isExplicitlyClosed (scheduleReconnect w) = isExplicitlyClosed w /\
  exists t, timers (scheduleReconnect w) = [t] /\
            reconnectTimeout (scheduleReconnect w) = Some (handle t) /\
            delay t = 3000.
Proof.
  unfold in_sync, scheduleReconnect.
  destruct (reconnectTimeout w) as [h|] eqn:Hr.
  - intros (t & Ht & Hh & Hd). rewrite Hr. repeat split.
    + now exists t.
    + exists t. subst h. auto.
  - intros Ht. cbn. rewrite Ht. cbn. repeat split; eauto.
Qed.

Lemma in_sync_disarm w h :
  in_sync w -> reconnectTimeout w = Some h -> disarm h (timers w) = [].
Proof.
  unfold in_sync. intros Hsync Hr. rewrite Hr in Hsync.
  destruct Hsync as (t & -> & <- & _).
  unfold disarm. cbn. now rewrite Pos.eqb_refl.
Qed.

Lemma in_sync_same (v w : World) :
  timers v = timers w -> reconnectTimeout v = reconnectTimeout w ->
  in_sync w -> in_sync v.
Proof. unfold in_sync. now intros -> ->. Qed.

Lemma onopen_live w : in_sync w -> in_sync (onopen w).
Proof.
  intros Hsync. unfold onopen. cbn.
  destruct (reconnectTimeout w) as [h|] eqn:Hr.
  - unfold in_sync. cbn. apply (in_sync_disarm w h Hsync Hr).
  - apply (in_sync_same _ w); auto.
Qed.

Lemma live_step w e w' :
  live w -> is_disconnect e = false -> step w e = Some w' -> live w'.
Proof.
  intros [Hflag Hsync] Hd. unfold live.
  destruct e as [| |l|l|s|s raw|s|s|h|ms]; cbn in *; try discriminate.
  - intros [= <-]. destruct (connect_spec w) as (H1 & H2 & H3).
    split; [destruct H3 as [-> | ->]; auto|].
    now apply (in_sync_same _ w).
  - now intros [= <-].
  - now intros [= <-].
  - destruct (readyState s w) as [[| | |]|]; try discriminate.
    intros [= <-]. rewrite onopen_flag. split; [exact Hflag|].
    apply onopen_live. now apply (in_sync_same _ w).
  - destruct (readyState s w) as [[| | |]|]; try discriminate.
    intros [= <-]. pose proof (onmessage_wiring raw w) as Hw.
    same_wiring Hw. split; [congruence|]. now apply (in_sync_same _ w).
  - assert (Hgoal : isExplicitlyClosed (onerror w) = false /\
                    in_sync (onerror w)).
    { rewrite onerror_flag. split; [exact Hflag|].
      unfold onerror. cbn. destruct (ws w) as [s0|];
        [|now apply (in_sync_same _ w)].
      destruct (close_spec s0 (print (err "WebSocket error") w))
        as (H1 & H2 & _).
      now apply (in_sync_same _ w). }
    destruct (readyState s w) as [[| | |]|]; try discriminate;
      now intros [= <-].
  - assert (Hgoal : isExplicitlyClosed (onclose (set_readyState s CLOSED w))
                    = false /\
                    in_sync (onclose (set_readyState s CLOSED w))).
    { rewrite onclose_flag. split; [exact Hflag|].
      unfold onclose. cbn. rewrite Hflag. cbn.
      apply scheduleReconnect_live. now apply (in_sync_same _ w). }
    destruct (readyState s w) as [[| | |]|]; try discriminate;
      now intros [= <-].
  - destruct (armed h w) as [t|] eqn:Ha; [|discriminate].
    destruct (Nat.leb _ _); [|discriminate]. intros [= <-].
    apply armed_In in Ha as [Hin Hh].
    assert (Hr : reconnectTimeout w = Some h).
    { unfold in_sync in Hsync.
      destruct (reconnectTimeout w) as [h'|];
        [|rewrite Hsync in Hin; contradiction].
      destruct Hsync as (t' & Ht' & Hh' & _). rewrite Ht' in Hin.
      destruct Hin as [->|[]]. congruence. }
    unfold reconnect.
    match goal with |- context [connect ?v] =>
      destruct (connect_spec v) as (H1 & H2 & H3)
    end.
    split; [destruct H3 as [-> | ->]; auto|].
    unfold in_sync. rewrite H1, H2. cbn.
    apply (in_sync_disarm w h Hsync Hr).
  - now intros [= <-].
Qed.

Lemma reachable_live tr w :
  forallb (fun e => negb (is_disconnect e)) tr = true ->
  run init tr = Some w -> live w.
Proof.
  intros Hall Hrun.
  apply (run_invariant live (fun e => negb (is_disconnect e))) with
    (tr := tr) (w := init); auto.
  - intros w0 e w1 HI He. apply negb_true_iff in He. now apply live_step.
  - now split.
Qed.

(** C5.  After disconnect() the service stays off until connect() is
    called from outside: the pending reconnect timer is gone at once,
    and whatever the sockets report afterwards (open, message, error,
    close), the flag stays set, no timer is armed, no timer callback can
    run and no socket is created.  No other step sets the flag; and in a
    run without disconnect() every close report leaves exactly one
    reconnect timer armed, with a delay of 3000 ms. *)
Theorem disconnect_suppresses_reconnect (tr1 tr2 : list Event)
    (w1 w2 : World) :
  run init tr1 = Some w1 ->
  forallb (fun e => negb (is_connect e)) tr2 = true ->
  run (disconnect w1) tr2 = Some w2 ->
  (off (disconnect w1) /\ off w2 /\
   length (sockets w2) = length (sockets w1) /\
   forallb (fun e => negb (is_fire e)) tr2 = true) /\
  (forall w e w',
     step w e = Some w' ->
     isExplicitlyClosed w = false -> isExplicitlyClosed w' = true ->
     e = Disconnect) /\
  (forall tr w s w',
     forallb (fun e => negb (is_disconnect e)) tr = true ->
     run init tr = Some w ->
     step w (SockClose s) = Some w' ->
     isExplicitlyClosed w' = false /\
     exists t, timers w' = [t] /\ reconnectTimeout w' = Some (handle t) /\
               delay t = 3000).
Proof.
  intros Hrun1 Hall Hrun2. split; [|split].
  - pose proof (disconnect_off w1 (reachable_tracked _ _ Hrun1)) as Hoff.
    destruct (off_run tr2 _ _ Hoff Hall Hrun2) as (Hoff2 & Hlen & Hfire).
    rewrite disconnect_sockets in Hlen. auto.
  - apply flag_raised_by_disconnect.
  - intros tr w s w' Hnd Hrun Hstep.
    destruct (reachable_live tr w Hnd Hrun) as [Hflag Hsync].
    cbn in Hstep.
    assert (Hgoal : isExplicitlyClosed (onclose (set_readyState s CLOSED w))
                    = false /\
                    exists t,
                      timers (onclose (set_readyState s CLOSED w)) = [t] /\
                      reconnectTimeout (onclose (set_readyState s CLOSED w))
                        = Some (handle t) /\
                      delay t = 3000).
    { unfold onclose. cbn. rewrite Hflag. cbn.
      match goal with |- context [scheduleReconnect ?v] =>
        destruct (scheduleReconnect_live v Hsync) as (_ & H2 & H3)
      end.
      rewrite H2. auto. }
    destruct (readyState s w) as [[| | |]|]; try discriminate;
      now injection Hstep as <-.
Qed.

(** ** What the steps keep *)

Lemma set_has_nth l es i :
  nth_error es i = Some (Some l) -> set_has l es = true.
Proof.
  intros H. unfold set_has. apply existsb_exists. exists (Some l).
  split; [eapply nth_error_In, H|]. cbn. apply Nat.eqb_refl.
Qed.

Lemma set_add_well_formed l es :
  well_formed es -> well_formed (set_add l es).
Proof.
  intros Hwf. unfold set_add. destruct (set_has l es) eqn:Hhas; [exact Hwf|].
  assert (Hlast : forall i x,
            nth_error (es ++ [Some l]) i = Some (Some x) ->
            nth_error es i = Some (Some x) \/ (i = length es /\ x = l)).
  { intros i x H. destruct (Nat.lt_ge_cases i (length es)) as [Hlt|Hge].
    - left. now rewrite nth_error_app1 in H.
    - right. rewrite nth_error_app2 in H by assumption.
      destruct (i - length es) as [|n] eqn:E; cbn in H.
      + injection H as <-. split; [lia|reflexivity].
      + now destruct n. }
  intros i j x Hi Hj.
  destruct (Hlast _ _ Hi) as [Hi'|[-> ->]], (Hlast _ _ Hj) as [Hj'|[-> Hx]].
  - eapply Hwf; eassumption.
  - subst x. apply set_has_nth in Hi'. congruence.
  - apply set_has_nth in Hj'. congruence.
  - reflexivity.
Qed.

Lemma step_listeners w e w' :
  step w e = Some w' ->
  (exists l, e = Subscribe l /\ listeners w' = set_add l (listeners w)) \/
  shrinks (listeners w) (listeners w').
Proof.
  destruct e as [| |l|l|s|s raw|s|s|h|ms]; cbn.
  - intros [= <-]. right. unfold connect.
    destruct (ws w) as [s|]; [destruct (readyState s w) as [[| | |]|]|];
      cbn; apply shrinks_refl.
  - intros [= <-]. right. unfold disconnect, close. cbn.
    destruct (ws w) as [s|];
      [destruct (readyState s (set_isExplicitlyClosed true w))
         as [[| | |]|]|];
      cbn; destruct (reconnectTimeout w); cbn; apply shrinks_refl.
  - intros [= <-]. left. now exists l.
  - intros [= <-]. right. apply set_delete_shrinks.
  - destruct (readyState s w) as [[| | |]|]; try discriminate.
    intros [= <-]. right. unfold onopen. cbn.
    destruct (reconnectTimeout w); cbn; apply shrinks_refl.
  - destruct (readyState s w) as [[| | |]|]; try discriminate.
    intros [= <-]. right. unfold onmessage.
    destruct (JSON_parse raw) as [data|]; [|apply shrinks_refl].
    destruct (notifyListeners data w) as [w1 threw] eqn:Hn.
    destruct (notifyListeners_spec _ _ _ _ Hn) as (calls & _ & _ & _ & Hs & _).
    now destruct threw.
  - assert (Hgoal : shrinks (listeners w) (listeners (onerror w))).
    { unfold onerror, close. cbn. destruct (ws w) as [s0|];
        [destruct (readyState s0 (print (err "WebSocket error") w))
           as [[| | |]|]|]; cbn; apply shrinks_refl. }
    destruct (readyState s w) as [[| | |]|]; try discriminate;
      intros [= <-]; now right.
  - assert (Hgoal : shrinks (listeners w)
                      (listeners (onclose (set_readyState s CLOSED w)))).
    { unfold onclose, scheduleReconnect. cbn.
      destruct (isExplicitlyClosed w); cbn; [apply shrinks_refl|].
      destruct (reconnectTimeout w); cbn; apply shrinks_refl. }
    destruct (readyState s w) as [[| | |]|]; try discriminate;
      intros [= <-]; now right.
  - destruct (armed h w) as [t|]; [|discriminate].
    destruct (Nat.leb _ _); [|discriminate]. intros [= <-]. right.
    unfold reconnect, connect. cbn.
    destruct (ws w) as [s|]; [|apply shrinks_refl]. unfold readyState. cbn.
    destruct (option_map snd (find (fun p => Pos.eqb (fst p) s) (sockets w)))
      as [[| | |]|]; cbn; apply shrinks_refl.
  - intros [= <-]. right. apply shrinks_refl.
Qed.

(** In every run, no listener is entered twice in the set. *)
Lemma reachable_well_formed tr w :
  run init tr = Some w -> well_formed (listeners w).
Proof.
  apply (run_invariant (fun w => well_formed (listeners w)) (fun _ => true)).
  - intros w0 e w1 Hwf _ Hs.
    destruct (step_listeners _ _ _ Hs) as [(l & _ & ->)|Hsh].
    + now apply set_add_well_formed.
    + eapply shrinks_well_formed; eassumption.
  - intros i j x H. now destruct i.
  - apply forallb_true.
Qed.

(** The delivery record only grows, and only a message step extends it. *)
Lemma step_delivered w e w' :
  step w e = Some w' -> exists more, delivered w' = delivered w ++ more.
Proof.
  destruct e as [| |l|l|s|s raw|s|s|h|ms]; cbn.
  - intros [= <-]. exists []. rewrite app_nil_r. unfold connect.
    destruct (ws w) as [s|]; [destruct (readyState s w) as [[| | |]|]|];
      reflexivity.
  - intros [= <-]. exists []. rewrite app_nil_r. unfold disconnect, close. cbn.
    destruct (ws w) as [s|];
      [destruct (readyState s (set_isExplicitlyClosed true w))
         as [[| | |]|]|];
      cbn; destruct (reconnectTimeout w); reflexivity.
  - intros [= <-]. exists []. now rewrite app_nil_r.
  - intros [= <-]. exists []. now rewrite app_nil_r.
  - destruct (readyState s w) as [[| | |]|]; try discriminate.
    intros [= <-]. exists []. rewrite app_nil_r. unfold onopen. cbn.
    destruct (reconnectTimeout w); reflexivity.
  - destruct (readyState s w) as [[| | |]|]; try discriminate.
    intros [= <-]. unfold onmessage.
    destruct (JSON_parse raw) as [data|];
      [|exists []; now rewrite app_nil_r].
    destruct (notifyListeners data w) as [w1 threw] eqn:Hn.
    destruct (notifyListeners_spec _ _ _ _ Hn) as (calls & Hd & _).
    exists (map (fun l => (l, data)) calls). now destruct threw.
  - assert (Hgoal : delivered (onerror w) = delivered w).
    { unfold onerror, close. cbn. destruct (ws w) as [s0|];
        [destruct (readyState s0 (print (err "WebSocket error") w))
           as [[| | |]|]|]; reflexivity. }
    destruct (readyState s w) as [[| | |]|]; try discriminate;
      intros [= <-]; exists []; now rewrite app_nil_r.
  - assert (Hgoal : delivered (onclose (set_readyState s CLOSED w))
                    = delivered w).
    { unfold onclose, scheduleReconnect. cbn.
      destruct (isExplicitlyClosed w); cbn; [reflexivity|].
      destruct (reconnectTimeout w); reflexivity. }
    destruct (readyState s w) as [[| | |]|]; try discriminate;
      intros [= <-]; exists []; now rewrite app_nil_r.
  - destruct (armed h w) as [t|]; [|discriminate].
    destruct (Nat.leb _ _); [|discriminate]. intros [= <-].
    exists []. rewrite app_nil_r. unfold reconnect, connect. cbn.
    destruct (ws w) as [s|]; [|reflexivity]. unfold readyState. cbn.
    destruct (option_map snd (find (fun p => Pos.eqb (fst p) s) (sockets w)))
      as [[| | |]|]; reflexivity.
  - intros [= <-]. exists []. now rewrite app_nil_r.
Qed.

(** Listeners that never unsubscribe anyone leave the set as it is. *)
Lemma forEach_keeps_listeners k :
  (forall l data, unsubscribes (call l data) = []) ->
  forall i data w, listeners (fst (forEach k i data w)) = listeners w.
Proof.
  intros Hstay. induction k as [|k IH]; intros i data w; cbn; [reflexivity|].
  destruct (nth_error (listeners w) i) as [[l|]|]; try apply IH.
  unfold Telemetry.invoke. rewrite Hstay. cbn.
  destruct (throws (call l data)); [reflexivity|].
  now rewrite IH.
Qed.

End Dispatch.


Import Samples.


Lemma unparsable_frame_is_dropped_witness :
  let w := after UseWebSocket.reaction two_hooks in
  readyState 1%positive w = Some OPEN /\
  sample_parse "not json" = None /\
  step sample_parse UseWebSocket.reaction w
    (SockMessage 1%positive "not json") = Some (print parse_failure w) /\
  delivered (print parse_failure w) = delivered w.
Proof.
  cbv zeta.
  assert (Hopen : readyState 1%positive (after UseWebSocket.reaction two_hooks)
                  = Some OPEN) by (vm_compute; reflexivity).
  assert (Hbad : sample_parse "not json" = None) by (vm_compute; reflexivity).
  destruct (unparsable_frame_is_dropped sample_parse UseWebSocket.reaction
              (after UseWebSocket.reaction two_hooks) 1%positive "not json"
              Hopen Hbad) as (H1 & H2 & _).
  split; [exact Hopen|]. split; [exact Hbad|]. split; [exact H1|exact H2].
Defined.



Lemma disconnect_suppresses_reconnect_witness :
  let tr1 := [Connect; SockOpen 1%positive] in
  let tr2 := [SockClose 1%positive; Elapse 5000] in
  let w1 := after UseWebSocket.reaction tr1 in
  let w2 := after UseWebSocket.reaction (tr1 ++ Disconnect :: tr2) in
  run sample_parse UseWebSocket.reaction init tr1 = Some w1 /\
  run sample_parse UseWebSocket.reaction (disconnect w1) tr2 = Some w2 /\
  off w2 /\ length (sockets w2) = length (sockets w1).
Proof.
  cbv zeta.
  assert (H1 : run sample_parse UseWebSocket.reaction init
                 [Connect; SockOpen 1%positive]
               = Some (after UseWebSocket.reaction
                         [Connect; SockOpen 1%positive]))
    by (vm_compute; reflexivity).
  assert (H2 : run sample_parse UseWebSocket.reaction
                 (disconnect (after UseWebSocket.reaction
                                [Connect; SockOpen 1%positive]))
                 [SockClose 1%positive; Elapse 5000]
               = Some (after UseWebSocket.reaction
                         ([Connect; SockOpen 1%positive] ++
                          Disconnect :: [SockClose 1%positive; Elapse 5000])))
    by (vm_compute; reflexivity).
  assert (Hn : forallb (fun e => negb (is_connect e))
                 [SockClose 1%positive; Elapse 5000] = true)
    by (vm_compute; reflexivity).
  destruct (disconnect_suppresses_reconnect sample_parse
              UseWebSocket.reaction _ _ _ _ H1 Hn H2)
    as ((_ & Hoff & Hlen & _) & _).
  split; [exact H1|]. split; [exact H2|]. split; [exact Hoff|exact Hlen].
Defined.

(** C2 at its failing input.  The connection drops and a reconnect timer
    is armed; the caller disconnects, which clears the timer but keeps
    its handle in [reconnectTimeout]; the caller connects again and the
    new socket fails before opening.  That close is unexpected (the flag
    is down), yet [scheduleReconnect] sees the old handle and returns:
    no timer is armed, so no reconnect will follow. *)
Theorem stale_handle_blocks_reconnect :
  exists w_drop w_end,
    run sample_parse UseWebSocket.reaction init (firstn 3 drop_after_cycle)
      = Some w_drop /\
    length (timers w_drop) = 1 /\
    run sample_parse UseWebSocket.reaction init drop_after_cycle
      = Some w_end /\
    isExplicitlyClosed w_end = false /\
    readyState 2%positive w_end = Some CLOSED /\
    reconnectTimeout w_end = Some 1%positive /\
    timers w_end = [].
Proof.
  exists (after UseWebSocket.reaction (firstn 3 drop_after_cycle)),
         (after UseWebSocket.reaction drop_after_cycle).
  evaluate.
Qed.

(** ** Further facts about the service *)

(** ** The subscriber set *)

Lemma set_has_In l es : set_has l es = true <-> In (Some l) es.
Proof.
  unfold set_has. rewrite existsb_exists. split.
  - intros ([x|] & Hin & Hh); cbn in Hh; [|discriminate].
    apply Nat.eqb_eq in Hh. now subst x.
  - intros Hin. exists (Some l). split; [exact Hin|]. cbn.
    apply Nat.eqb_refl.
Qed.

Lemma set_add_In l es : In (Some l) (set_add l es).
Proof.
  unfold set_add. destruct (set_has l es) eqn:E.
  - now apply set_has_In.
  - apply in_or_app. right. now left.
Qed.

Lemma set_add_keeps l l' es : In (Some l') es -> In (Some l') (set_add l es).
Proof.
  unfold set_add. destruct (set_has l es); [easy|].
  intros H. apply in_or_app. now left.
Qed.

Lemma set_add_only l l' es :
  In (Some l') (set_add l es) -> l' = l \/ In (Some l') es.
Proof.
  unfold set_add. destruct (set_has l es); [now right|].
  intros H. apply in_app_or in H as [H|[H|[]]]; [now right|].
  injection H as <-. now left.
Qed.

Lemma well_formed_tail e es : well_formed (e :: es) -> well_formed es.
Proof.
  intros Hwf i j x Hi Hj.
  specialize (Hwf (S i) (S j) x Hi Hj). lia.
Qed.

Lemma set_delete_gone l es :
  well_formed es -> ~ In (Some l) (set_delete l es).
Proof.
  induction es as [|e es IH]; cbn; intros Hwf; [easy|].
  destruct (holds l e) eqn:Hh.
  - destruct e as [x|]; cbn in Hh; [|discriminate].
    apply Nat.eqb_eq in Hh. subst x.
    intros [Heq|Hin]; [discriminate|].
    apply In_nth_error in Hin as [j Hj].
    specialize (Hwf 0 (S j) l eq_refl Hj). discriminate.
  - intros [Heq|Hin].
    + subst e. cbn in Hh. now rewrite Nat.eqb_refl in Hh.
    + apply (IH (well_formed_tail _ _ Hwf) Hin).
Qed.

Lemma set_delete_others l l' es :
  l' <> l -> (In (Some l') (set_delete l es) <-> In (Some l') es).
Proof.
  intros Hne. induction es as [|e es IH]; cbn; [tauto|].
  destruct (holds l e) eqn:Hh; cbn.
  - destruct e as [x|]; cbn in Hh; [|discriminate].
    apply Nat.eqb_eq in Hh. subst x. split.
    + intros [Heq|Hin]; [discriminate|now right].
    + intros [Heq|Hin]; [congruence|now right].
  - rewrite IH. tauto.
Qed.

(** X10.  subscribe and unsubscribe behave like adding to and deleting from a
    set: a listener subscribed twice is entered once, unsubscribing
    removes it, and neither touches the other listeners. *)
Theorem subscribe_unsubscribe (w : World) (l : Listener) :
  well_formed (listeners w) ->
  subscribed l (subscribe l w) /\
  subscribe l (subscribe l w) = subscribe l w /\
  ~ subscribed l (unsubscribe l w) /\
  (forall l', l' <> l ->
     (subscribed l' (subscribe l w) <-> subscribed l' w) /\
     (subscribed l' (unsubscribe l w) <-> subscribed l' w)).
Proof.
  intros Hwf. unfold subscribed, subscribe, unsubscribe. cbn.
  split; [apply set_add_In|]. split; [|split].
  - unfold set_listeners. cbn.
    assert (Hhas : set_has l (set_add l (listeners w)) = true)
      by (apply set_has_In, set_add_In).
    unfold set_add at 1. now rewrite Hhas.
  - now apply set_delete_gone.
  - intros l' Hne. split.
    + split; [|apply set_add_keeps].
      intros H. apply set_add_only in H as [H|H]; [contradiction|exact H].
    + now apply set_delete_others.
Qed.

Section Connection.

Variable JSON_parse : string -> option JSON.
Variable call : Listener -> JSON -> Reaction.

Notation step := (step JSON_parse call).
Notation run := (run JSON_parse call).

Lemma find_unique (l : list (SocketId * ReadyState)) s st :
  NoDup (map fst l) -> In (s, st) l ->
  find (fun p => Pos.eqb (fst p) s) l = Some (s, st).
Proof.
  induction l as [|[s0 st0] l IH]; cbn; [contradiction|].
  intros Hnd [Heq|Hin].
  - injection Heq as -> ->. now rewrite Pos.eqb_refl.
  - apply NoDup_cons_iff in Hnd as [Hnotin Hnd].
    destruct (Pos.eqb s0 s) eqn:E.
    + apply Pos.eqb_eq in E. subst s0. exfalso. apply Hnotin.
      apply in_map_iff. now exists (s, st).
    + now apply IH.
Qed.

Lemma readyState_In s st w :
  NoDup (map fst (sockets w)) -> In (s, st) (sockets w) ->
  readyState s w = Some st.
Proof.
  intros Hnd Hin. unfold readyState. now rewrite (find_unique _ _ _ Hnd Hin).
Qed.

Lemma readyState_found s st w :
  readyState s w = Some st -> In (s, st) (sockets w).
Proof.
  unfold readyState.
  destruct (find (fun p => Pos.eqb (fst p) s) (sockets w)) as [[s0 st0]|]
    eqn:Hf; cbn; [|discriminate].
  intros [= <-]. apply find_some in Hf as [Hin Heq]. cbn in Heq.
  apply Pos.eqb_eq in Heq. now subst s0.
Qed.

Lemma relabel_ids s st (l : list (SocketId * ReadyState)) :
  map fst (map (fun p => if Pos.eqb (fst p) s then (s, st) else p) l)
  = map fst l.
Proof.
  induction l as [|[s0 st0] l IH]; cbn; [reflexivity|].
  rewrite IH. destruct (Pos.eqb s0 s) eqn:E; cbn; [|reflexivity].
  apply Pos.eqb_eq in E. now subst s0.
Qed.

Lemma relabel_In s st (l : list (SocketId * ReadyState)) s' st' :
  In (s', st')
     (map (fun p => if Pos.eqb (fst p) s then (s, st) else p) l) ->
  (s' = s /\ st' = st) \/ (In (s', st') l /\ s' <> s).
Proof.
  intros Hin. apply in_map_iff in Hin as ([s0 st0] & Heq & Hin). cbn in Heq.
  destruct (Pos.eqb s0 s) eqn:E.
  - injection Heq as <- <-. now left.
  - injection Heq as <- <-. right. split; [exact Hin|].
    now apply Pos.eqb_neq.
Qed.

(** [sound_sockets] looks only at the socket table, the next id and the
    socket held. *)
Lemma sound_sockets_same (v w : World) :
  sockets v = sockets w -> next_socket v = next_socket w -> ws v = ws w ->
  sound_sockets w -> sound_sockets v.
Proof. unfold sound_sockets. now intros -> -> ->. Qed.

Lemma set_readyState_sound s st w :
  sound_sockets w ->
  (is_live st = true -> ws w = Some s) ->
  sound_sockets (set_readyState s st w).
Proof.
  intros (Hnd & Hlt & Hlive) Hst. unfold sound_sockets. cbn.
  rewrite relabel_ids. split; [exact Hnd|]. split.
  - intros p Hin. apply in_map_iff in Hin as ([s0 st0] & <- & Hin).
    specialize (Hlt _ Hin). cbn in *.
    destruct (Pos.eqb s0 s) eqn:E; cbn; [|exact Hlt].
    apply Pos.eqb_eq in E. now subst s0.
  - intros s' st' Hin Hl.
    apply relabel_In in Hin as [[-> ->]|[Hin _]]; [now apply Hst|].
    now apply (Hlive s' st').
Qed.

Lemma close_sound s w : sound_sockets w -> sound_sockets (close s w).
Proof.
  intros Hs. unfold close.
  destruct (readyState s w) as [[| | |]|]; try exact Hs;
    apply set_readyState_sound; try exact Hs; discriminate.
Qed.

(** After [close] on the socket held, no socket is live. *)
Lemma close_held_dead s w :
  sound_sockets w -> ws w = Some s ->
  forall s' st', In (s', st') (sockets (close s w)) -> is_live st' = false.
Proof.
  intros (Hnd & _ & Hlive) Hws s' st' Hin.
  destruct (is_live st') eqn:Hl; [exfalso|reflexivity].
  assert (Hsame : In (s', st') (sockets w) ->
                  forall st, readyState s w = st -> st = Some st').
  { intros Hin' st <-. pose proof (Hlive _ _ Hin' Hl) as Hw.
    rewrite Hws in Hw. injection Hw as <-.
    apply (readyState_In _ _ _ Hnd Hin'). }
  assert (Hrelabel : In (s', st') (sockets (set_readyState s CLOSING w)) ->
                     False).
  { cbn. intros Hin'.
    apply relabel_In in Hin' as [[-> ->]|[Hin' Hne]]; [discriminate|].
    specialize (Hlive _ _ Hin' Hl). congruence. }
  unfold close in Hin.
  destruct (readyState s w) as [[| | |]|] eqn:Hr; auto;
    specialize (Hsame Hin _ eq_refl);
    first [discriminate Hsame | injection Hsame as <-; discriminate].
Qed.

Lemma connect_busy w s st :
  ws w = Some s -> readyState s w = Some st -> is_live st = true ->
  connect w = w.
Proof.
  intros Hws Hr Hl. unfold connect. rewrite Hws, Hr.
  now destruct st.
Qed.

(** [connect] either returns at once or opens one new socket. *)
Lemma connect_cases w :
  connect w = w \/
  ((forall s st, ws w = Some s -> readyState s w = Some st ->
                 is_live st = false) /\
   ws (connect w) = Some (next_socket w) /\
   sockets (connect w) = sockets w ++ [(next_socket w, CONNECTING)] /\
   next_socket (connect w) = Pos.succ (next_socket w) /\
   isExplicitlyClosed (connect w) = false).
Proof.
  unfold connect.
  destruct (ws w) as [s0|] eqn:Hws;
    [destruct (readyState s0 w) as [[| | |]|] eqn:Hr|];
    try (now left); right; cbn; repeat split; try congruence;
    intros s st [= <-] Hst; rewrite Hr in Hst; now injection Hst as <-.
Qed.

Lemma connect_sound w : sound_sockets w -> sound_sockets (connect w).
Proof.
  intros Hs. destruct (connect_cases w) as [->|(Hdead & Hws & Hso & Hn & _)];
    [exact Hs|].
  destruct Hs as (Hnd & Hlt & Hlive). unfold sound_sockets.
  rewrite Hws, Hso, Hn. split; [|split].
  - rewrite map_app. cbn. apply NoDup_app; [exact Hnd| |].
    + constructor; [easy|constructor].
    + intros a Ha [<-|[]]. apply in_map_iff in Ha as (p & Hp & Hin).
      specialize (Hlt p Hin). rewrite Hp in Hlt.
      now apply Pos.lt_irrefl in Hlt.
  - intros p Hin. apply in_app_or in Hin as [Hin|[<-|[]]]; cbn.
    + specialize (Hlt p Hin). apply Pos.lt_lt_succ. exact Hlt.
    + apply Pos.lt_succ_diag_r.
  - intros s st Hin Hl. apply in_app_or in Hin as [Hin|[Heq|[]]].
    + pose proof (Hlive _ _ Hin Hl) as Hw.
      rewrite (Hdead s st Hw (readyState_In _ _ _ Hnd Hin)) in Hl.
      discriminate.
    + now injection Heq as <- <-.
Qed.

Lemma onmessage_sound raw w :
  sound_sockets w -> sound_sockets (onmessage JSON_parse call raw w).
Proof.
  pose proof (onmessage_wiring JSON_parse call raw w) as Hw.
  unfold wiring in Hw.
  injection Hw as Hws _ _ _ Hsockets Hnsock _ _.
  now apply sound_sockets_same.
Qed.

Lemma step_sound w e w' :
  sound_sockets w -> step w e = Some w' -> sound_sockets w'.
Proof.
  intros Hs.
  destruct e as [| |l|l|s|s raw|s|s|h|ms]; cbn.
  - intros [= <-]. now apply connect_sound.
  - intros [= <-]. unfold disconnect. cbn.
    assert (Hgoal : forall v : World,
              sound_sockets v ->
              sound_sockets match reconnectTimeout v with
                            | Some h => clearTimeout h v
                            | None => v
                            end).
    { intros v Hv. destruct (reconnectTimeout v); [|exact Hv].
      now apply (sound_sockets_same _ v). }
    apply Hgoal.
    destruct (ws w) as [s0|] eqn:Hws.
    + pose proof (close_sound s0 (set_isExplicitlyClosed true w)) as Hc.
      pose proof (close_held_dead s0 (set_isExplicitlyClosed true w)) as Hd.
      assert (Hs' : sound_sockets (set_isExplicitlyClosed true w))
        by now apply (sound_sockets_same _ w).
      specialize (Hc Hs'). specialize (Hd Hs' Hws).
      destruct Hc as (Hnd & Hlt & _). unfold sound_sockets. cbn.
      split; [exact Hnd|]. split; [exact Hlt|].
      intros s st Hin Hl. rewrite (Hd s st Hin) in Hl. discriminate.
    + now apply (sound_sockets_same _ w).
  - intros [= <-]. now apply (sound_sockets_same _ w).
  - intros [= <-]. now apply (sound_sockets_same _ w).
  - destruct (readyState s w) as [[| | |]|] eqn:Hr; try discriminate.
    intros [= <-].
    assert (Hopen : sound_sockets (set_readyState s OPEN w)).
    { apply set_readyState_sound; [exact Hs|]. intros _.
      destruct Hs as (_ & _ & Hlive).
      apply (Hlive s CONNECTING); [now apply readyState_found|reflexivity]. }
    unfold onopen. cbn.
    destruct (reconnectTimeout w);
      now apply (sound_sockets_same _ (set_readyState s OPEN w)).
  - destruct (readyState s w) as [[| | |]|]; try discriminate.
    intros [= <-]. now apply onmessage_sound.
  - assert (Hgoal : sound_sockets (onerror w)).
    { unfold onerror. cbn. destruct (ws w) as [s0|] eqn:Hws.
      - apply close_sound. now apply (sound_sockets_same _ w).
      - now apply (sound_sockets_same _ w). }
    destruct (readyState s w) as [[| | |]|]; try discriminate;
      now intros [= <-].
  - assert (Hgoal : sound_sockets (onclose (set_readyState s CLOSED w))).
    { assert (Hc : sound_sockets (set_readyState s CLOSED w))
        by (apply set_readyState_sound; [exact Hs|discriminate]).
      unfold onclose, scheduleReconnect. cbn.
      destruct (isExplicitlyClosed w); cbn;
        [now apply (sound_sockets_same _ (set_readyState s CLOSED w))|].
      destruct (reconnectTimeout w);
        now apply (sound_sockets_same _ (set_readyState s CLOSED w)). }
    destruct (readyState s w) as [[| | |]|]; try discriminate;
      now intros [= <-].
  - destruct (armed h w) as [t|]; [|discriminate].
    destruct (Nat.leb _ _); [|discriminate]. intros [= <-].
    unfold reconnect. apply connect_sound.
    now apply (sound_sockets_same _ w).
  - intros [= <-]. now apply (sound_sockets_same _ w).
Qed.

Lemma reachable_sound tr w : run init tr = Some w -> sound_sockets w.
Proof.
  apply (run_invariant JSON_parse call sound_sockets (fun _ => true)).
  - intros w0 e w1 H _. now apply step_sound.
  - unfold sound_sockets. cbn. split; [constructor|]. split; contradiction.
  - apply forallb_true.
Qed.

(** X7.  In every run at most one socket is connecting or open, and it is
    the one the service holds in [ws]. *)
Theorem at_most_one_live_socket (tr : list Event) (w : World)
    (s1 s2 : SocketId) (st1 st2 : ReadyState) :
  run init tr = Some w ->
  In (s1, st1) (sockets w) -> In (s2, st2) (sockets w) ->
  is_live st1 = true -> is_live st2 = true ->
  s1 = s2 /\ st1 = st2 /\ ws w = Some s1.
Proof.
  intros Hrun H1 H2 L1 L2.
  destruct (reachable_sound _ _ Hrun) as (Hnd & _ & Hlive).
  pose proof (Hlive _ _ H1 L1) as W1. pose proof (Hlive _ _ H2 L2) as W2.
  assert (s1 = s2) by congruence. subst s2.
  split; [reflexivity|]. split; [|exact W1].
  pose proof (readyState_In _ _ _ Hnd H1).
  pose proof (readyState_In _ _ _ Hnd H2). congruence.
Qed.

(** X8.  connect() is idempotent: a second call right after the first finds
    the socket connecting and changes nothing, so the two calls create
    at most one socket. *)
Theorem connect_twice_is_connect_once (tr : list Event) (w : World) :
  run init tr = Some w ->
  connect (connect w) = connect w /\
  length (sockets (connect w)) <= S (length (sockets w)).
Proof.
  intros Hrun. pose proof (reachable_sound _ _ Hrun) as Hs.
  pose proof (connect_sound w Hs) as Hs'.
  destruct (connect_cases w) as [Hsame|(_ & Hws & Hso & _)].
  - rewrite Hsame. split; [exact Hsame|lia].
  - split.
    + apply (connect_busy _ (next_socket w) CONNECTING); [exact Hws| |easy].
      apply readyState_In; [apply Hs'|]. rewrite Hso.
      apply in_or_app. right. now left.
    + rewrite Hso, length_app. cbn. lia.
Qed.

(** ** The reconnect timer, in all runs *)

Lemma sound_timers_same (v w : World) :
  timers v = timers w -> reconnectTimeout v = reconnectTimeout w ->
  sound_timers w -> sound_timers v.
Proof. unfold sound_timers. now intros -> ->. Qed.

Lemma sound_timers_tracked w : sound_timers w -> tracked w.
Proof. intros [_ H] t Hin. now apply H. Qed.

Lemma sound_timers_none (v : World) : timers v = [] -> sound_timers v.
Proof. unfold sound_timers. intros ->. cbn. split; [lia|contradiction]. Qed.

Lemma scheduleReconnect_sound w :
  sound_timers w -> sound_timers (scheduleReconnect w).
Proof.
  intros Hs. unfold scheduleReconnect.
  destruct (reconnectTimeout w) eqn:Hr; [exact Hs|].
  pose proof (tracked_none w (sound_timers_tracked w Hs) Hr) as Hnone.
  unfold sound_timers. cbn. rewrite Hnone. cbn. split; [lia|].
  intros t [<-|[]]. now split.
Qed.

Lemma step_sound_timers w e w' :
  sound_timers w -> step w e = Some w' -> sound_timers w'.
Proof.
  intros Hs. pose proof (sound_timers_tracked w Hs) as Ht.
  destruct e as [| |l|l|s|s raw|s|s|h|ms]; cbn.
  - intros [= <-]. destruct (connect_spec w) as (H1 & H2 & _).
    now apply (sound_timers_same _ w).
  - intros [= <-]. destruct (disconnect_spec w) as (_ & _ & Hr & Htm & _).
    destruct (reconnectTimeout w) as [h|] eqn:E.
    + apply sound_timers_none. rewrite Htm. apply (disarm_tracked h w Ht E).
    + apply (sound_timers_same _ w); [exact Htm|congruence|exact Hs].
  - intros [= <-]. now apply (sound_timers_same _ w).
  - intros [= <-]. now apply (sound_timers_same _ w).
  - destruct (readyState s w) as [[| | |]|]; try discriminate.
    intros [= <-]. unfold onopen. cbn.
    destruct (reconnectTimeout w) as [h|] eqn:E.
    + apply sound_timers_none. cbn. apply (disarm_tracked h w Ht E).
    + now apply (sound_timers_same _ w).
  - destruct (readyState s w) as [[| | |]|]; try discriminate.
    intros [= <-]. pose proof (onmessage_wiring JSON_parse call raw w) as Hw.
    unfold wiring in Hw. injection Hw as _ Hrt _ _ _ _ Htimers _.
    now apply (sound_timers_same _ w).
  - assert (Hgoal : sound_timers (onerror w)).
    { unfold onerror. cbn. destruct (ws w) as [s0|];
        [|now apply (sound_timers_same _ w)].
      destruct (close_spec s0 (print (err "WebSocket error") w))
        as (H1 & H2 & _).
      now apply (sound_timers_same _ w). }
    destruct (readyState s w) as [[| | |]|]; try discriminate;
      now intros [= <-].
  - assert (Hgoal : sound_timers (onclose (set_readyState s CLOSED w))).
    { unfold onclose. cbn. destruct (isExplicitlyClosed w); cbn.
      - now apply (sound_timers_same _ w).
      - apply scheduleReconnect_sound. now apply (sound_timers_same _ w). }
    destruct (readyState s w) as [[| | |]|]; try discriminate;
      now intros [= <-].
  - destruct (armed h w) as [t|] eqn:Ha; [|discriminate].
    destruct (Nat.leb _ _); [|discriminate]. intros [= <-].
    apply armed_In in Ha as [Hin Hh]. pose proof (Ht t Hin) as Hr.
    rewrite Hh in Hr. unfold reconnect.
    match goal with |- sound_timers (connect ?v) =>
      destruct (connect_spec v) as (H1 & H2 & _)
    end.
    apply sound_timers_none. rewrite H1. cbn.
    apply (disarm_tracked h w Ht Hr).
  - intros [= <-]. now apply (sound_timers_same _ w).
Qed.

(** X9.  In every run, disconnects included, at most one reconnect timer is
    armed, it is the one remembered in [reconnectTimeout], and its delay
    is 3000 ms. *)
Theorem single_reconnect_timer (tr : list Event) (w : World) :
  run init tr = Some w ->
  length (timers w) <= 1 /\
  forall t, In t (timers w) ->
    delay t = 3000 /\ reconnectTimeout w = Some (handle t).
Proof.
  apply (run_invariant JSON_parse call sound_timers (fun _ => true)).
  - intros w0 e w1 H _. now apply step_sound_timers.
  - now apply sound_timers_none.
  - apply forallb_true.
Qed.

(** ** Messages and the connection *)

(** X11.  No frame, whether it parses or not and whatever the listeners do
    with it, touches the connection: socket table, socket held, flag,
    timers and clock are as before, and the subscriber set can only have
    lost entries.  When a listener throws, the service logs its
    parse-failure line and carries on. *)
Theorem frames_never_touch_the_connection (w : World) (s : SocketId)
    (raw : string) :
  readyState s w = Some OPEN ->
  exists w',
    step w (SockMessage s raw) = Some w' /\
    wiring w' = wiring w /\
    shrinks (listeners w) (listeners w') /\
    (console w' = console w \/
     console w' = console w ++ [err "Failed to parse WebSocket message"]).
Proof.
  intros Hopen. cbn. rewrite Hopen. eexists. split; [reflexivity|].
  split; [apply onmessage_wiring|].
  unfold onmessage. destruct (JSON_parse raw) as [data|].
  - destruct (notifyListeners call data w) as [w1 threw] eqn:Hn.
    destruct (notifyListeners_spec call _ _ _ _ Hn)
      as (calls & _ & _ & Hc & Hs & _).
    destruct threw; cbn; rewrite Hc; auto.
  - cbn. split; [apply shrinks_refl|]. now right.
Qed.

Lemma shrinks_not_In l es es' :
  shrinks es es' -> ~ In (Some l) es -> ~ In (Some l) es'.
Proof.
  intros [_ Hs] Hn Hin. apply In_nth_error in Hin as [j Hj].
  apply Hn. eapply nth_error_In, Hs, Hj.
Qed.

(** What a step adds to the delivery record goes to listeners that were
    subscribed when the step began. *)
Lemma step_delivered_to w e w' :
  step w e = Some w' ->
  exists more,
    delivered w' = delivered w ++ more /\
    forall l m, In (l, m) more -> subscribed l w.
Proof.
  intros Hs.
  destruct e as [| |l|l|s|s raw|s|s|h|ms]; cbn in Hs.
  6: {
    destruct (readyState s w) as [[| | |]|]; try discriminate.
    injection Hs as <-. unfold onmessage.
    destruct (JSON_parse raw) as [data|].
    - destruct (notifyListeners call data w) as [w1 threw] eqn:Hn.
      destruct (notifyListeners_spec call _ _ _ _ Hn)
        as (calls & Hd & _ & _ & _ & Horigin & _).
      exists (map (fun l => (l, data)) calls). split; [now destruct threw|].
      intros l m Hin. apply in_map_iff in Hin as (l0 & [= <- <-] & Hin).
      now apply Horigin.
    - exists []. split; [cbn; now rewrite app_nil_r|]. contradiction. }
  all: exists []; rewrite app_nil_r; split; [|contradiction].
  - injection Hs as <-. unfold connect.
    destruct (ws w) as [s|]; [destruct (readyState s w) as [[| | |]|]|];
      reflexivity.
  - injection Hs as <-. unfold disconnect, close. cbn.
    destruct (ws w) as [s|];
      [destruct (readyState s (set_isExplicitlyClosed true w))
         as [[| | |]|]|];
      cbn; destruct (reconnectTimeout w); reflexivity.
  - now injection Hs as <-.
  - now injection Hs as <-.
  - destruct (readyState s w) as [[| | |]|]; try discriminate.
    injection Hs as <-. unfold onopen. cbn.
    destruct (reconnectTimeout w); reflexivity.
  - assert (Hgoal : delivered (onerror w) = delivered w).
    { unfold onerror, close. cbn. destruct (ws w) as [s0|];
        [destruct (readyState s0 (print (err "WebSocket error") w))
           as [[| | |]|]|]; reflexivity. }
    destruct (readyState s w) as [[| | |]|]; try discriminate;
      now injection Hs as <-.
  - assert (Hgoal : delivered (onclose (set_readyState s CLOSED w))
                    = delivered w).
    { unfold onclose, scheduleReconnect. cbn.
      destruct (isExplicitlyClosed w); cbn; [reflexivity|].
      destruct (reconnectTimeout w); reflexivity. }
    destruct (readyState s w) as [[| | |]|]; try discriminate;
      now injection Hs as <-.
  - destruct (armed h w) as [t|]; [|discriminate].
    destruct (Nat.leb _ _); [|discriminate]. injection Hs as <-.
    unfold reconnect, connect. cbn.
    destruct (ws w) as [s|]; [|reflexivity]. unfold readyState. cbn.
    destruct (option_map snd (find (fun p => Pos.eqb (fst p) s) (sockets w)))
      as [[| | |]|]; reflexivity.
  - now injection Hs as <-.
Qed.

Lemma silent_step l w e w' :
  ~ subscribed l w -> is_subscribe l e = false -> step w e = Some w' ->
  ~ subscribed l w' /\ calls_to l w' = calls_to l w.
Proof.
  intros Hn He Hs. split.
  - destruct (step_listeners JSON_parse call _ _ _ Hs)
      as [(l0 & -> & Hl)|Hsh].
    + unfold subscribed. rewrite Hl. intros Hin.
      apply set_add_only in Hin as [->|Hin]; [|contradiction].
      cbn in He. now rewrite Nat.eqb_refl in He.
    + now apply (shrinks_not_In l _ _ Hsh).
  - destruct (step_delivered_to _ _ _ Hs) as (more & Hd & Hto).
    unfold calls_to. rewrite Hd, filter_app.
    assert (Hnone : filter (fun d : Listener * JSON => Nat.eqb (fst d) l)
                      more = []).
    { clear Hd. induction more as [|[l0 m] more IH]; cbn; [reflexivity|].
      destruct (Nat.eqb l0 l) eqn:E.
      - apply Nat.eqb_eq in E. subst l0. exfalso. apply Hn.
        apply (Hto l m). now left.
      - apply IH. intros l1 m1 Hin. apply (Hto l1 m1). now right. }
    rewrite Hnone. apply app_nil_r.
Qed.

(** X12.  Unsubscribing is effective: a listener that is not subscribed
    is never called, whatever happens on the sockets, until it is
    subscribed again: the list of calls made to it stays exactly as it
    was, repeats of earlier messages included. *)
Theorem unsubscribed_listener_hears_nothing (l : Listener)
    (tr : list Event) (w w' : World) :
  ~ subscribed l w ->
  forallb (fun e => negb (is_subscribe l e)) tr = true ->
  run w tr = Some w' ->
  ~ subscribed l w' /\ calls_to l w' = calls_to l w.
Proof.
  revert w. induction tr as [|e tr IH]; cbn; intros w Hn Hall Hrun.
  - injection Hrun as <-. auto.
  - apply andb_prop in Hall as [He Hall]. apply negb_true_iff in He.
    destruct (step w e) as [w1|] eqn:Hs; [|discriminate].
    destruct (silent_step l _ _ _ Hn He Hs) as [Hn1 Hd1].
    destruct (IH _ Hn1 Hall Hrun) as [Hn' Hd'].
    split; [exact Hn'|]. congruence.
Qed.

End Connection.

Lemma at_most_one_live_socket_witness :
  let w := after UseWebSocket.reaction (firstn 5 drop_after_cycle) in
  In (2%positive, CONNECTING) (sockets w) /\ ws w = Some 2%positive.
Proof.
  cbv zeta.
  assert (Hrun : run sample_parse UseWebSocket.reaction init
                   (firstn 5 drop_after_cycle)
                 = Some (after UseWebSocket.reaction
                           (firstn 5 drop_after_cycle)))
    by (vm_compute; reflexivity).
  assert (Hin : In (2%positive, CONNECTING)
                  (sockets (after UseWebSocket.reaction
                              (firstn 5 drop_after_cycle)))).
  { vm_compute. right. now left. }
  split; [exact Hin|].
  exact (proj2 (proj2 (at_most_one_live_socket sample_parse
                         UseWebSocket.reaction _ _ _ _ _ _
                         Hrun Hin Hin eq_refl eq_refl))).
Defined.

Lemma connect_twice_is_connect_once_witness :
  let w := after UseWebSocket.reaction (firstn 3 drop_after_cycle) in
  connect (connect w) = connect w /\
  length (sockets (connect w)) <= S (length (sockets w)).
Proof.
  cbv zeta.
  assert (Hrun : run sample_parse UseWebSocket.reaction init
                   (firstn 3 drop_after_cycle)
                 = Some (after UseWebSocket.reaction
                           (firstn 3 drop_after_cycle)))
    by (vm_compute; reflexivity).
  exact (connect_twice_is_connect_once sample_parse UseWebSocket.reaction
           _ _ Hrun).
Defined.

Lemma single_reconnect_timer_witness :
  let w := after UseWebSocket.reaction (firstn 3 drop_after_cycle) in
  timers w <> [] /\
  length (timers w) <= 1 /\
  forall t, In t (timers w) ->
    delay t = 3000 /\ reconnectTimeout w = Some (handle t).
Proof.
  cbv zeta.
  assert (Hrun : run sample_parse UseWebSocket.reaction init
                   (firstn 3 drop_after_cycle)
                 = Some (after UseWebSocket.reaction
                           (firstn 3 drop_after_cycle)))
    by (vm_compute; reflexivity).
  split; [vm_compute; discriminate|].
  exact (single_reconnect_timer sample_parse UseWebSocket.reaction
           _ _ Hrun).
Defined.

Lemma subscribe_unsubscribe_witness :
  let w := after unsubscribing four_subscribers in
  subscribed 2 w /\
  subscribe 2 (subscribe 2 w) = subscribe 2 w /\
  ~ subscribed 2 (unsubscribe 2 w).
Proof.
  cbv zeta.
  assert (Hwf : well_formed
                  (listeners (after unsubscribing four_subscribers))).
  { apply (reachable_well_formed sample_parse unsubscribing four_subscribers).
    vm_compute. reflexivity. }
  destruct (subscribe_unsubscribe (after unsubscribing four_subscribers) 2
              Hwf) as (_ & H2 & H3 & _).
  split; [vm_compute; auto|]. split; [exact H2|exact H3].
Defined.

Lemma frames_never_touch_the_connection_witness :
  let w := after UseWebSocket.reaction two_hooks in
  exists w',
    step sample_parse UseWebSocket.reaction w
      (SockMessage 1%positive "null") = Some w' /\
    wiring w' = wiring w.
Proof.
  cbv zeta.
  assert (Hopen : readyState 1%positive (after UseWebSocket.reaction two_hooks)
                  = Some OPEN) by (vm_compute; reflexivity).
  destruct (frames_never_touch_the_connection sample_parse
              UseWebSocket.reaction _ 1%positive "null" Hopen)
    as (w' & H1 & H2 & _).
  exists w'. split; [exact H1|exact H2].
Defined.

Lemma unsubscribed_listener_hears_nothing_witness :
  let w := after UseWebSocket.reaction second_hook_leaves in
  let tr := [SockMessage 1%positive pong_frame;
             SockMessage 1%positive pong_frame; SockClose 1%positive] in
  let w' := after UseWebSocket.reaction (second_hook_leaves ++ tr) in
  run sample_parse UseWebSocket.reaction w tr = Some w' /\
  length (calls_to 1 w) = 1 /\
  length (calls_to 0 w') = 3 /\
  calls_to 1 w' = calls_to 1 w.
Proof.
  cbv zeta.
  assert (Hn : ~ subscribed 1
                 (after UseWebSocket.reaction second_hook_leaves)).
  { unfold subscribed. vm_compute. intros [H|[H|[]]]; discriminate. }
  assert (Hall : forallb (fun e => negb (is_subscribe 1 e))
                   [SockMessage 1%positive pong_frame;
                    SockMessage 1%positive pong_frame;
                    SockClose 1%positive]
                 = true) by (vm_compute; reflexivity).
  assert (Hrun : run sample_parse UseWebSocket.reaction
                   (after UseWebSocket.reaction second_hook_leaves)
                   [SockMessage 1%positive pong_frame;
                    SockMessage 1%positive pong_frame;
                    SockClose 1%positive]
                 = Some (after UseWebSocket.reaction
                           (second_hook_leaves ++
                            [SockMessage 1%positive pong_frame;
                             SockMessage 1%positive pong_frame;
                             SockClose 1%positive])))
    by (vm_compute; reflexivity).
  split; [exact Hrun|]. split; [vm_compute; reflexivity|].
  split; [vm_compute; reflexivity|].
  exact (proj2 (unsubscribed_listener_hears_nothing sample_parse
                  UseWebSocket.reaction 1 _ _ _ Hn Hall Hrun)).
Defined.

End TelemetryFacts.

(* ===================================================================== *)
(** * Facts about the [useWebSocket] hook *)
(* ===================================================================== *)

Module UseWebSocketFacts.
Import Telemetry UseWebSocket Samples.

(** One call of the listener can only switch [isConnected] on. *)
Lemma absorb_isConnected st m :
  isConnected (absorb st m) = isConnected st || announces m.
Proof.
  unfold absorb, listener, announces.
  destruct m as [|b|z e|t|items|ms]; cbn;
    try (now rewrite orb_false_r).
  destruct (equals (lookup "type" ms) "telemetry"); cbn;
    [now rewrite orb_true_r|].
  destruct (equals (lookup "type" ms) "pong"); cbn;
    [now rewrite orb_true_r|now rewrite orb_false_r].
Qed.

Lemma fold_isConnected ms : forall st,
  isConnected (fold_left absorb ms st) = true <->
  isConnected st = true \/ exists m, In m ms /\ announces m = true.
Proof.
  induction ms as [|m ms IH]; cbn; intros st.
  - split; [auto|]. intros [H|(m & [] & _)]. exact H.
  - rewrite IH, absorb_isConnected, orb_true_iff. split.
    + intros [[H|H]|(m' & Hin & Ha)]; eauto.
    + intros [H|(m' & [<-|Hin] & Ha)]; eauto.
Qed.

Lemma messages_for_In l m w :
  In m (messages_for l w) <-> In (l, m) (delivered w).
Proof.
  unfold messages_for. rewrite in_map_iff. split.
  - intros ([l' m'] & Hm & Hin). cbn in Hm. subst m'.
    apply filter_In in Hin as [Hin Hl]. cbn in Hl.
    apply Nat.eqb_eq in Hl. now subst l'.
  - intros Hin. exists (l, m). split; [reflexivity|].
    apply filter_In. split; [exact Hin|]. cbn. apply Nat.eqb_refl.
Qed.

Lemma state_of_latch l w :
  isConnected (state_of l w) = true <->
  exists m, In (l, m) (delivered w) /\ announces m = true.
Proof.
  unfold state_of. rewrite fold_isConnected. cbn. split.
  - intros [H|(m & Hin & Ha)]; [discriminate|].
    exists m. now rewrite <- messages_for_In.
  - intros (m & Hin & Ha). right. exists m. now rewrite messages_for_In.
Qed.

(** A telemetry message overwrites the snapshot whatever came before. *)
Lemma absorb_telemetry ms st :
  lookup "type" ms = value (JString "telemetry") ->
  absorb st (JObject ms)
  = {| telemetry := lookup "data" ms; isConnected := true |}.
Proof. unfold absorb, listener. cbn. now intros ->. Qed.

Lemma fold_same_telemetry ms xs : forall st,
  lookup "type" ms = value (JString "telemetry") ->
  (forall x, In x xs -> x = JObject ms) -> xs <> [] ->
  fold_left absorb xs st
  = {| telemetry := lookup "data" ms; isConnected := true |}.
Proof.
  induction xs as [|x xs IH]; intros st Ht Hall Hne; [contradiction|].
  cbn. rewrite (Hall x (or_introl eq_refl)), (absorb_telemetry _ _ Ht).
  destruct xs as [|y ys]; [reflexivity|].
  apply IH; [exact Ht| |discriminate].
  intros z Hz. apply Hall. now right.
Qed.

Lemma batch_for l data calls :
  let xs := map snd (filter (fun d : Listener * JSON => Nat.eqb (fst d) l)
                       (map (fun l' => (l', data)) calls)) in
  (forall x, In x xs -> x = data) /\ (In l calls -> xs <> []).
Proof.
  induction calls as [|c calls [IH1 IH2]]; cbn.
  - split; [contradiction|]. contradiction.
  - destruct (Nat.eqb c l) eqn:E; cbn.
    + split; [|discriminate]. intros x [<-|Hin]; auto.
    + split; [exact IH1|]. intros [->|Hin]; [|auto].
      rewrite Nat.eqb_refl in E. discriminate.
Qed.

Section Hook.

Variable JSON_parse : string -> option JSON.

Notation step := (step JSON_parse reaction).
Notation run := (run JSON_parse reaction).

(** C9, as the hook has it.  [isConnected] is true exactly when the
    hook's listener has been called with at least one telemetry or pong
    message since it subscribed, and no step of the service, disconnect
    included, switches it back.  A telemetry frame arriving on the open
    socket is parsed and handed, within that one step, to every
    subscribed instance of the hook; each then has [isConnected] true and
    holds the frame's [data] as its snapshot. *)
Theorem isConnected_latches (w : World) (s : SocketId) (raw : string)
    (ms : list (string * JSON)) :
  readyState s w = Some OPEN ->
  JSON_parse raw = Some (JObject ms) ->
  lookup "type" ms = value (JString "telemetry") ->
  (exists w',
     step w (SockMessage s raw) = Some w' /\
     listeners w' = listeners w /\
     forall l, subscribed l w ->
       In (l, JObject ms) (skipn (length (delivered w)) (delivered w')) /\
       isConnected (state_of l w') = true /\
       telemetry (state_of l w') = lookup "data" ms) /\
  (forall l v,
     isConnected (state_of l v) = true <->
     exists m, In (l, m) (delivered v) /\ announces m = true) /\
  (forall l e v v',
     step v e = Some v' ->
     isConnected (state_of l v) = true ->
     isConnected (state_of l v') = true).
Proof.
  intros Hopen Hparse Htype. split; [|split].
  - assert (Hstep : step w (SockMessage s raw)
                    = Some (onmessage JSON_parse reaction raw w))
      by (cbn; now rewrite Hopen).
    destruct (TelemetryFacts.onmessage_parsed JSON_parse reaction
                raw (JObject ms) w Hparse) as (calls & Hd & Hcover).
    { intros l _. unfold reaction, listener. cbn. now rewrite Htype. }
    set (w' := onmessage JSON_parse reaction raw w) in *.
    assert (Hl : listeners w' = listeners w).
    { unfold w', onmessage. rewrite Hparse. unfold notifyListeners.
      pose proof (TelemetryFacts.forEach_keeps_listeners reaction
                    (length (listeners w)) (fun _ _ => eq_refl)
                    0 (JObject ms) w) as Hk.
      destruct (forEach reaction (length (listeners w)) 0 (JObject ms) w)
        as [w1 [|]]; exact Hk. }
    exists w'. split; [exact Hstep|]. split; [exact Hl|].
    intros l Hsub.
    assert (Hin : In l calls) by (apply Hcover; unfold subscribed; now rewrite Hl).
    destruct (batch_for l (JObject ms) calls) as [Hall Hne].
    assert (Hstate : state_of l w'
                     = {| telemetry := lookup "data" ms;
                          isConnected := true |}).
    { unfold state_of, messages_for. rewrite Hd, filter_app, map_app,
        fold_left_app.
      apply fold_same_telemetry; auto. }
    rewrite Hstate, Hd, skipn_app, skipn_all, Nat.sub_diag. cbn.
    repeat split. apply in_map_iff. now exists l.
  - intros l v. apply state_of_latch.
  - intros l e v v' Hstep. rewrite !state_of_latch.
    destruct (TelemetryFacts.step_delivered _ _ _ _ _ Hstep) as (more & ->).
    intros (m & Hin & Ha). exists m. split; [|exact Ha].
    apply in_or_app. now left.
Qed.

End Hook.

Lemma isConnected_latches_witness :
  let w := after reaction two_hooks in
  exists w',
    step sample_parse reaction w (SockMessage 1%positive telemetry_frame)
      = Some w' /\
    forall l, subscribed l w ->
      isConnected (state_of l w') = true /\
      telemetry (state_of l w') = value snapshot.
Proof.
  cbv zeta.
  assert (Hopen : readyState 1%positive (after reaction two_hooks)
                  = Some OPEN) by (vm_compute; reflexivity).
  assert (Hparse : sample_parse telemetry_frame
                   = Some (JObject [("type", JString "telemetry");
                                    ("data", snapshot)]))
    by (vm_compute; reflexivity).
  assert (Htype : lookup "type"
                    [("type", JString "telemetry"); ("data", snapshot)]
                  = value (JString "telemetry"))
    by (vm_compute; reflexivity).
  destruct (isConnected_latches sample_parse (after reaction two_hooks)
              1%positive telemetry_frame
              [("type", JString "telemetry"); ("data", snapshot)]
              Hopen Hparse Htype)
    as ((w' & Hstep & _ & Hall) & _).
  exists w'. split; [exact Hstep|].
  intros l Hl. destruct (Hall l Hl) as (_ & H1 & H2).
  split; [exact H1|exact H2].
Defined.

(** C9 as stated fails: after one pong the caller disconnects; nothing
    has been received since, and the hook still reports
    [isConnected = true]. *)
Lemma isConnected_survives_disconnect :
  exists w,
    run sample_parse reaction init heard_then_disconnected = Some w /\
    isExplicitlyClosed w = true /\ ws w = None /\
    last heard_then_disconnected Connect = Disconnect /\
    isConnected (state_of 0 w) = true.
Proof.
  exists (after reaction heard_then_disconnected).
  evaluate.
Qed.

(** X13.  What the listener does with each kind of message: it throws exactly
    on [null]; a pong switches [isConnected] on and keeps the snapshot;
    anything that is neither telemetry nor pong is ignored. *)
Theorem listener_by_message_kind (m : JSON) (st : State) :
  (listener m st = None <-> m = JNull) /\
  (announces m = false -> m <> JNull -> listener m st = Some st) /\
  (forall ms, m = JObject ms ->
     lookup "type" ms = value (JString "pong") ->
     listener m st
     = Some {| telemetry := telemetry st; isConnected := true |}).
Proof.
  unfold listener, announces. split; [|split].
  - destruct m as [|b|z e|t|items|ms]; cbn; try (split; discriminate).
    + split; reflexivity.
    + destruct (equals (lookup "type" ms) "telemetry"); [split; discriminate|].
      destruct (equals (lookup "type" ms) "pong"); split; discriminate.
  - destruct m as [|b|z e|t|items|ms]; cbn; try reflexivity.
    + intros _ H. now contradiction H.
    + destruct (equals (lookup "type" ms) "telemetry"); [discriminate|].
      destruct (equals (lookup "type" ms) "pong"); [discriminate|].
      reflexivity.
  - intros ms -> Ht. cbn. rewrite Ht. reflexivity.
Qed.

Lemma listener_by_message_kind_witness :
  listener (JNumber 17 0) initial = Some initial /\
  listener (JObject [("type", JString "pong")]) initial
  = Some {| telemetry := value JNull; isConnected := true |}.
Proof.
  destruct (listener_by_message_kind (JNumber 17 0) initial)
    as (_ & H2 & _).
  destruct (listener_by_message_kind (JObject [("type", JString "pong")])
              initial) as (_ & _ & H3).
  split.
  - apply H2; [reflexivity|discriminate].
  - apply (H3 [("type", JString "pong")]); reflexivity.
Defined.

End UseWebSocketFacts.
